(** * HW5_BidOptimizer: the pricing-context learning engine

    A shallow embedding of [space_logic.py] (Bucket, Level, Space and the
    grid construction) and of the request handlers of [server.py]
    (optimize, feedback, background_learning), followed by the properties
    of the design document that are checked against them.

    Conventions of the embedding.
    - Python floats are modelled by exact rationals [Q] where a statement
      is about counts, bounds kept by monotone operations, or the
      structure of the data; equalities between computed numbers are then
      stated with [==] (Qeq).
    - Where the answer depends on how a computation rounds, the floats
      are the binary64 numbers themselves: the grid construction is given
      a second time in module [B64], and what is said about the values of
      the bucket bounds and of [linspace] is said there. The conversion
      of an int price to a float, which can raise, is part of the events
      of the server ([optimize_py]).
    - Python ints are [Z].
    - A Python object mutated in place is a value threaded through the
      state monad [M]; an exception is the result [Raised], which keeps the
      state as the mutations performed before the raise left it.
    - Calls into external libraries (random.expovariate, lightgbm) are
      interfaces ([Random], [Learner]) that the definitions are generic in. *)

From Stdlib Require Import ZArith QArith Qminmax Qabs Lqa Lia Sorted Floats.
From stdpp Require Import base option list gmap strings.

Local Open Scope Z_scope.

(** ** Exceptions and the state/exception monad *)

Inductive exn : Type :=
| IndexError
| KeyError
| ZeroDivisionError
| ValueError
| LearnerError
| OverflowError.

Inductive result (S A : Type) : Type :=
| Returned (a : A) (s : S)
| Raised (e : exn) (s : S).
Arguments Returned {S A} a s.
Arguments Raised {S A} e s.

Definition M (S A : Type) : Type := S -> result S A.

Definition ret {S A} (a : A) : M S A := fun s => Returned a s.

Definition raise {S A} (e : exn) : M S A := fun s => Raised e s.

Definition bind {S A B} (c : M S A) (k : A -> M S B) : M S B :=
  fun s => match c s with
           | Returned a s' => k a s'
           | Raised e s' => Raised e s'
           end.

Definition get {S} : M S S := fun s => Returned s s.

Definition gets {S A} (f : S -> A) : M S A := fun s => Returned (f s) s.

Definition modify {S} (f : S -> S) : M S unit := fun s => Returned tt (f s).

(** A library call that may raise: [None] is the exception [e]. *)
Definition or_raise {S A} (e : exn) (o : option A) : M S A :=
  match o with
  | Some a => ret a
  | None => raise e
  end.

(** The state a computation leaves behind, whether it returned or raised. *)
Definition state_of {S A} (r : result S A) : S :=
  match r with
  | Returned _ s => s
  | Raised _ s => s
  end.

Definition returned {S A} (r : result S A) : bool :=
  match r with
  | Returned _ _ => true
  | Raised _ _ => false
  end.

(** [try: c except Exception: pass] *)
Definition try_except {S A} (c : M S A) : M S unit :=
  fun s => Returned tt (state_of (c s)).

Declare Scope py_scope.
Delimit Scope py_scope with py.
Notation "'let*' x := c 'in' k" := (bind c (fun x => k))
  (at level 10, x name, c at level 100, k at level 200, only parsing) : py_scope.
Notation "c ;; k" := (bind c (fun _ => k))
  (at level 100, k at level 200, right associativity, only parsing) : py_scope.

(** [for x in xs: body x] *)
Fixpoint for_each {S A} (xs : list A) (body : A -> M S unit) : M S unit :=
  match xs with
  | [] => ret tt
  | x :: xs' => (body x ;; for_each xs' body)%py
  end.

(** [list.pop()]: the list without its last element, and that element. *)
Fixpoint pop {A} (l : list A) : option (list A * A) :=
  match l with
  | [] => None
  | x :: l' =>
      match pop l' with
      | None => Some ([], x)
      | Some (r, y) => Some (x :: r, y)
      end
  end.

(** [enumerate(xs)] *)
Definition enumerate {A} (xs : list A) : list (nat * A) := imap pair xs.

(** ** Bucket *)

Module Bucket.

Record t : Type := mk {
  lhs : Q;
  rhs : Q;
  alpha : Q;
  beta : Q;
  buffer : list bool;
  size : Z;
  discount : Q;
  pr : Q;
  update_qty : Z
}.

(** [Bucket.__init__] *)
Definition init (lhs rhs : Q) (size : Z) (discount : Q) : t :=
  {| lhs := lhs; rhs := rhs; alpha := 1; beta := 1; buffer := [];
     size := size; discount := discount; pr := 0.5; update_qty := 0 |}.

Definition set_alpha (f : Q -> Q) (b : t) : t :=
  mk (lhs b) (rhs b) (f (alpha b)) (beta b) (buffer b) (size b) (discount b)
     (pr b) (update_qty b).
Definition set_beta (f : Q -> Q) (b : t) : t :=
  mk (lhs b) (rhs b) (alpha b) (f (beta b)) (buffer b) (size b) (discount b)
     (pr b) (update_qty b).
Definition set_buffer (f : list bool -> list bool) (b : t) : t :=
  mk (lhs b) (rhs b) (alpha b) (beta b) (f (buffer b)) (size b) (discount b)
     (pr b) (update_qty b).
Definition set_pr (f : Q -> Q) (b : t) : t :=
  mk (lhs b) (rhs b) (alpha b) (beta b) (buffer b) (size b) (discount b)
     (f (pr b)) (update_qty b).
Definition set_update_qty (f : Z -> Z) (b : t) : t :=
  mk (lhs b) (rhs b) (alpha b) (beta b) (buffer b) (size b) (discount b)
     (pr b) (f (update_qty b)).

(** [oldest = self.buffer.pop()]: IndexError on an empty buffer. *)
Definition buffer_pop : M t bool :=
  fun b => match pop (buffer b) with
           | None => Raised IndexError b
           | Some (rest, oldest) => Returned oldest (set_buffer (fun _ => rest) b)
           end.

(** [self.alpha / (self.alpha + self.beta)] *)
Definition win_ratio : M t Q :=
  fun b => if Qeq_bool (alpha b + beta b) 0
           then Raised ZeroDivisionError b
           else Returned (alpha b / (alpha b + beta b))%Q b.

(** [Bucket.update] *)
Definition update (impression : bool) : M t unit :=
  (modify (set_update_qty (fun n => n + 1)) ;;
   let* b := get in
   (if Z.of_nat (length (buffer b)) >=? size b then
      let* oldest := buffer_pop in
      if oldest : bool
      then modify (set_alpha (fun a => a - 1)%Q)
      else modify (set_beta (fun a => a - 1)%Q)
    else ret tt) ;;
   modify (set_buffer (fun l => impression :: l)) ;;
   (if impression
    then modify (set_alpha (fun a => a + 1)%Q)
    else modify (set_beta (fun a => a + 1)%Q)) ;;
   let* r := win_ratio in
   modify (fun b => set_pr (fun p => discount b * p + (1 - discount b) * r)%Q b))%py.

(** A caller feeding the outcomes one call after the other; a call that
    raises leaves the bucket as it was at the raise and the next call
    goes on from there. *)
Definition updates (outcomes : list bool) (b : t) : t :=
  fold_left (fun b o => state_of (update o b)) outcomes b.

(** No call of the sequence raised. *)
Fixpoint updates_return (outcomes : list bool) (b : t) : bool :=
  match outcomes with
  | [] => true
  | o :: os => returned (update o b) && updates_return os (state_of (update o b))
  end.

End Bucket.

(** ** Level *)

Module Level.

Record t : Type := mk {
  buckets : list Bucket.t;
  winning_curve : list Q
}.

(** [Level.__init__] *)
Definition init (buckets : list Bucket.t) : t :=
  {| buckets := buckets; winning_curve := map (fun _ => 0.5%Q) buckets |}.

Definition set_buckets (f : list Bucket.t -> list Bucket.t) (l : t) : t :=
  mk (f (buckets l)) (winning_curve l).
Definition set_winning_curve (f : list Q -> list Q) (l : t) : t :=
  mk (buckets l) (f (winning_curve l)).

(** [b.lhs <= price <= b.rhs] *)
Definition contains (b : Bucket.t) (price : Q) : bool :=
  Qle_bool (Bucket.lhs b) price && Qle_bool price (Bucket.rhs b).

(** The loop of [sample_buckets], entered at index [i]. *)
Fixpoint sample_buckets_from (i : Z) (bs : list Bucket.t) (price : Q) : Z :=
  match bs with
  | [] => -1
  | b :: bs' =>
      if contains b price then i else sample_buckets_from (i + 1) bs' price
  end.

(** [Level.sample_buckets] *)
Definition sample_buckets (l : t) (price : Q) : Z :=
  sample_buckets_from 0 (buckets l) price.

End Level.

(** ** The calibration model (lightgbm)

    [train X y] is [lgb.train] on the dataset of feature rows [X] and
    labels [y]; [predict m pr price] is [m.predict([[pr, price]])[0]].
    Either may raise, which is [None]. *)

Class Learner : Type := {
  model : Type;
  train : list (Q * Q) -> list Z -> option model;
  predict : model -> Q -> Q -> option Q
}.

(** One entry of [learning_data]: [{'pr': _, 'price': _, 'impression': _}]. *)
Record Sample : Type := mkSample {
  sample_pr : Q;
  sample_price : Q;
  sample_impression : Z
}.

(** [xs[i]] for a Python int [i]: negative indices count from the end. *)
Definition py_index (n : nat) (i : Z) : option nat :=
  if (0 <=? i) && (i <? Z.of_nat n) then Some (Z.to_nat i)
  else if (- Z.of_nat n <=? i) && (i <? 0) then Some (Z.to_nat (Z.of_nat n + i))
  else None.

(** ** Space *)

Module Space.

Record t : Type := mk {
  context_hash : string;
  levels : list Level.t;
  learning_data : gmap nat (list Sample)
}.

(** [Space.__init__]; the lock is part of the thread model below. *)
Definition init (context_hash : string) (levels : list Level.t) : t :=
  {| context_hash := context_hash;
     levels := levels;
     learning_data := list_to_map (map (fun i => (i, [])) (seq 0 (length levels))) |}.

Definition set_levels (f : list Level.t -> list Level.t) (sp : t) : t :=
  mk (context_hash sp) (f (levels sp)) (learning_data sp).
Definition set_learning_data
    (f : gmap nat (list Sample) -> gmap nat (list Sample)) (sp : t) : t :=
  mk (context_hash sp) (levels sp) (f (learning_data sp)).

(** [self.levels[i]] *)
Definition level_at (i : nat) : M t Level.t :=
  fun sp => or_raise IndexError (levels sp !! i) sp.

(** [self.learning_data[i]] *)
Definition data_at (i : nat) : M t (list Sample) :=
  fun sp => or_raise KeyError (learning_data sp !! i) sp.

(** Run a method of the object [self.levels[i].buckets[bID]]. *)
Definition at_bucket {A} (i : nat) (bID : Z) (c : M Bucket.t A) : M t A :=
  (let* lvl := level_at i in
   let* j := or_raise IndexError (py_index (length (Level.buckets lvl)) bID) in
   let* b := or_raise IndexError (Level.buckets lvl !! j) in
   fun sp =>
     let store b' :=
       set_levels (fun ls => <[i := Level.set_buckets (fun bs => <[j := b']> bs) lvl]> ls) sp in
     match c b with
     | Returned a b' => Returned a (store b')
     | Raised e b' => Raised e (store b')
     end)%py.

(** The body of [update_feedback], run while the lock is held. *)
Definition update_feedback (buckets_indices : list Z) (impression : bool) : M t unit :=
  for_each (enumerate buckets_indices) (fun '(i, bID) =>
    if bID =? -1 then ret tt
    else
      (at_bucket i bID (Bucket.update impression) ;;
       let* data := data_at i in
       let* b := at_bucket i bID get in
       modify (set_learning_data (fun ld =>
         <[i := data ++ [ {| sample_pr := Bucket.pr b;
                             sample_price := (Bucket.lhs b + Bucket.rhs b) / 2;
                             sample_impression := if impression then 1 else 0 |} ]]> ld)))%py).

Section Learn.
Context `{Learner}.

(** [level.winning_curve[j] = pred] on [self.levels[i]] *)
Definition curve_store (i j : nat) (pred : Q) : M t unit :=
  (let* lvl := level_at i in
   if (j <? length (Level.winning_curve lvl))%nat
   then modify (set_levels (fun ls =>
          <[i := Level.set_winning_curve (fun c => <[j := pred]> c) lvl]> ls))
   else raise IndexError)%py.

(** Lines 95 to 113 for level [i]: [false] when the level is skipped
    for lack of data, [true] when its curve has been rewritten. *)
Definition fit (i : nat) : M t bool :=
  (let* level := level_at i in
   let* data := data_at i in
   if (length data <? 10)%nat then ret false
   else
     let X := map (fun d => (sample_pr d, sample_price d)) data in
     let y := map sample_impression data in
     let* m := or_raise LearnerError (train X y) in
     for_each (enumerate (Level.buckets level)) (fun '(j, bucket) =>
       let mid_price := ((Bucket.lhs bucket + Bucket.rhs bucket) / 2)%Q in
       let* pred := or_raise LearnerError (predict m (Bucket.pr bucket) mid_price) in
       curve_store i j pred) ;;
     ret true)%py.

(** Line 115: [self.learning_data[i] = []] *)
Definition clear (i : nat) : M t unit :=
  modify (set_learning_data (fun ld => <[i := []]> ld)).

(** One iteration of the loop of [learn]. *)
Definition learn_level (i : nat) : M t unit :=
  (let* fitted := fit i in
   if fitted : bool then clear i else ret tt)%py.

(** [Space.learn]. The Level objects that [enumerate] yields are
    references: iteration [i] reads [self.levels[i]] as it is then. *)
Definition learn : M t unit :=
  (let* lvls := gets levels in
   for_each (enumerate lvls) (fun '(i, _) => learn_level i))%py.

End Learn.

End Space.

(** ** Grid construction

    In this first rendering the numbers are exact. It serves the
    statements about what is built (how many levels and buckets, in
    which state, and when the construction raises); the values of the
    bounds are the subject of the binary64 rendering that follows. *)

(** [random.expovariate]: the generator state is threaded explicitly. *)
Class Random : Type := {
  rng : Type;
  expovariate : Q -> rng -> Q * rng
}.

(** The configuration dictionary [cfg]. *)
Record Config : Type := mkConfig {
  level_size : Z;
  bucket_size : Z;
  buffer_size : Z;
  cfg_discount : Q
}.

Definition LAMBDA_MIN : Q := 0.1.
Definition LAMBDA_MAX : Q := 1.8.
Definition MIN_LEVEL_SIZE : Z := 1.
Definition MIN_BUCKET_SIZE : Z := 5.
Definition MIN_BUFFER_SIZE : Z := 10.

(** The loop of [linspace]: [lambdas[i] = lambdas[i - 1] + step]. *)
Fixpoint linspace_from (n : nat) (prev step : Q) : list Q :=
  match n with
  | O => []
  | S n' => (prev + step)%Q :: linspace_from n' (prev + step)%Q step
  end.

(** [linspace]; [lambdas[0] = LAMBDA_MIN] raises on an empty list. *)
Definition linspace {S} (level_size : Z) : M S (list Q) :=
  if level_size <=? 0 then raise IndexError
  else if level_size =? 1 then ret [LAMBDA_MIN]
  else
    let step := ((LAMBDA_MAX - LAMBDA_MIN) / inject_Z (level_size - 1))%Q in
    ret (LAMBDA_MIN :: linspace_from (Z.to_nat (level_size - 1)) LAMBDA_MIN step).

(** [bounds.sort()] *)
Fixpoint insert_sorted (x : Q) (l : list Q) : list Q :=
  match l with
  | [] => [x]
  | y :: l' => if Qle_bool x y then x :: l else y :: insert_sorted x l'
  end.

Definition sort (l : list Q) : list Q := foldr insert_sorted [] l.

(** [bounds[-1]] of a list whose first element is [x]. *)
Fixpoint last_of (x : Q) (l : list Q) : Q :=
  match l with
  | [] => x
  | y :: l' => last_of y l'
  end.

Section Grid.
Context `{Random}.

(** [for _ in range(n): bounds.append(random.expovariate(lambda_param))] *)
Fixpoint draw (n : nat) (lambda_param : Q) : M rng (list Q) :=
  match n with
  | O => ret []
  | S n' =>
      (let* val := (fun g => let '(v, g') := expovariate lambda_param g in Returned v g') in
       let* rest := draw n' lambda_param in
       ret (val :: rest))%py
  end.

(** [generate_bucket_bounds] *)
Definition generate_bucket_bounds
    (lambda_param min_price max_price : Q) (n_buckets : Z) : M rng (list Q) :=
  (let* bounds := draw (Z.to_nat (n_buckets + 1)) lambda_param in
   match sort bounds with
   | [] => raise IndexError
   | mi :: rest =>
       let ma := last_of mi rest in
       if Qeq_bool (ma - mi) 0 then raise ZeroDivisionError
       else ret (map (fun val =>
              ((val - mi) / (ma - mi)) * (max_price - min_price) + min_price)%Q
              (mi :: rest))
   end)%py.

(** [new_buckets]: [bounds] has [bucket_size + 1] entries, so [lhs] and
    [rhs] have [bucket_size] and no [lhs[i]] is out of range. *)
Definition new_buckets
    (lambda_param min_price max_price : Q) (cfg : Config) : M rng (list Bucket.t) :=
  (let* bounds := generate_bucket_bounds lambda_param min_price max_price (bucket_size cfg) in
   let lhs := removelast bounds in
   let rhs := tail bounds in
   ret (take (Z.to_nat (bucket_size cfg))
          (zip_with (fun l r => Bucket.init l r (buffer_size cfg) (cfg_discount cfg))
             lhs rhs)))%py.

(** The loop of [new_levels]. *)
Fixpoint new_levels_loop
    (lambdas : list Q) (min_price max_price : Q) (cfg : Config) : M rng (list Level.t) :=
  match lambdas with
  | [] => ret []
  | lam :: lambdas' =>
      (let* buckets := new_buckets lam min_price max_price cfg in
       let* levels := new_levels_loop lambdas' min_price max_price cfg in
       ret (Level.init buckets :: levels))%py
  end.

(** [new_levels] *)
Definition new_levels (min_price max_price : Q) (cfg : Config) : M rng (list Level.t) :=
  (let* lambdas := linspace (level_size cfg) in
   new_levels_loop lambdas min_price max_price cfg)%py.

(** The checks [load_spaces] makes on [cfg] before it builds a Space. *)
Definition check_config (cfg : Config) : M rng unit :=
  if level_size cfg <? MIN_LEVEL_SIZE then raise ValueError
  else if bucket_size cfg <? MIN_BUCKET_SIZE then raise ValueError
  else if buffer_size cfg <? MIN_BUFFER_SIZE then raise ValueError
  else if negb (Qle_bool 0 (cfg_discount cfg) && Qle_bool (cfg_discount cfg) 1)
       then raise ValueError
  else ret tt.

(** One entry of the space description file. *)
Record SpaceDesc : Type := mkSpaceDesc {
  desc_context_hash : string;
  desc_min_price : option Q;
  desc_max_price : option Q
}.

(** The loop of [load_spaces] over the parsed description list, given
    the parsed [buckets_map]; [spaces] is the dictionary built so far. *)
Fixpoint load_spaces_loop
    (cfg : Config) (buckets_map : gmap string (Q * Q)) (spaces_desc : list SpaceDesc)
    (spaces : gmap string Space.t) : M rng (gmap string Space.t) :=
  match spaces_desc with
  | [] => ret spaces
  | s :: rest =>
      let context_hash := desc_context_hash s in
      let '(min_price, max_price) :=
        match buckets_map !! context_hash with
        | Some range => range
        | None => (default 0%Q (desc_min_price s), default 1%Q (desc_max_price s))
        end in
      (check_config cfg ;;
       let* levels := new_levels min_price max_price cfg in
       load_spaces_loop cfg buckets_map rest
         (<[context_hash := Space.init context_hash levels]> spaces))%py
  end.

Definition load_spaces
    (cfg : Config) (buckets_map : gmap string (Q * Q)) (spaces_desc : list SpaceDesc)
    : M rng (gmap string Space.t) :=
  load_spaces_loop cfg buckets_map spaces_desc ∅.

End Grid.

(** ** The grid in binary64

    The bounds of the buckets are computed with Python floats, and what
    [sample_buckets] answers at the ends of the price range depends on
    how these computations round. The grid construction is therefore
    given a second time, over the binary64 numbers of the processor
    ([float], with the IEEE 754 operations and comparisons that Python
    uses: round to nearest, ties to even). A decimal literal stands for
    the nearest binary64 number, as in Python. The price range and the
    discount are floats here, as a JSON number with a fraction is. *)

Set Warnings "-inexact-float".

Module B64.

Module Bucket.

Record t : Type := mk {
  lhs : float;
  rhs : float;
  alpha : float;
  beta : float;
  buffer : list bool;
  size : Z;
  discount : float;
  pr : float;
  update_qty : Z
}.

(** [Bucket.__init__] *)
Definition init (lhs rhs : float) (size : Z) (discount : float) : t :=
  {| lhs := lhs; rhs := rhs; alpha := 1%float; beta := 1%float; buffer := [];
     size := size; discount := discount; pr := 0.5%float; update_qty := 0 |}.

End Bucket.

Module Level.

Record t : Type := mk {
  buckets : list Bucket.t;
  winning_curve : list float
}.

(** [Level.__init__] *)
Definition init (buckets : list Bucket.t) : t :=
  {| buckets := buckets; winning_curve := map (fun _ => 0.5%float) buckets |}.

(** [b.lhs <= price <= b.rhs]: both comparisons are false on a NaN. *)
Definition contains (b : Bucket.t) (price : float) : bool :=
  (Bucket.lhs b <=? price)%float && (price <=? Bucket.rhs b)%float.

(** The loop of [sample_buckets], entered at index [i]. *)
Fixpoint sample_buckets_from (i : Z) (bs : list Bucket.t) (price : float) : Z :=
  match bs with
  | [] => -1
  | b :: bs' =>
      if contains b price then i else sample_buckets_from (i + 1) bs' price
  end.

(** [Level.sample_buckets] *)
Definition sample_buckets (l : t) (price : float) : Z :=
  sample_buckets_from 0 (buckets l) price.

End Level.

(** [random.expovariate] on floats, the generator state threaded. *)
Class Random : Type := {
  rng : Type;
  expovariate : float -> rng -> float * rng
}.

(** The configuration dictionary [cfg]. *)
Record Config : Type := mkConfig {
  level_size : Z;
  bucket_size : Z;
  buffer_size : Z;
  cfg_discount : float
}.

Definition LAMBDA_MIN : float := 0.1%float.
Definition LAMBDA_MAX : float := 1.8%float.

(** [float(n)] for an int [n >= 0]: the nearest binary64 number, ties to
    even. (Python raises OverflowError where this is infinite, from
    [2^1024 - 2^970] on; no list is that long.) *)
Definition float_of_int (n : Z) : float :=
  SF2Prim (binary_normalize prec emax n 0 false).

(** The loop of [linspace]: [lambdas[i] = lambdas[i - 1] + step]. *)
Fixpoint linspace_from (n : nat) (prev step : float) : list float :=
  match n with
  | O => []
  | S n' => (prev + step)%float :: linspace_from n' (prev + step)%float step
  end.

(** The step of [linspace]: [(LAMBDA_MAX - LAMBDA_MIN) / float(level_size - 1)]. *)
Definition linspace_step (level_size : Z) : float :=
  ((LAMBDA_MAX - LAMBDA_MIN) / float_of_int (level_size - 1))%float.

(** [linspace]; [lambdas[0] = LAMBDA_MIN] raises on an empty list. *)
Definition linspace {S} (level_size : Z) : M S (list float) :=
  if level_size <=? 0 then raise IndexError
  else if level_size =? 1 then ret [LAMBDA_MIN]
  else
    ret (LAMBDA_MIN ::
         linspace_from (Z.to_nat (level_size - 1)) LAMBDA_MIN (linspace_step level_size)).

(** [bounds.sort()]: a stable sort that compares with [<] only. On a
    list without NaN every such sort gives the same list. *)
Fixpoint insert_sorted (x : float) (l : list float) : list float :=
  match l with
  | [] => [x]
  | y :: l' => if (y <? x)%float then y :: insert_sorted x l' else x :: l
  end.

Definition sort (l : list float) : list float := foldr insert_sorted [] l.

(** [bounds[-1]] of a list whose first element is [x]. *)
Fixpoint last_of (x : float) (l : list float) : float :=
  match l with
  | [] => x
  | y :: l' => last_of y l'
  end.

(** The rescaling of one bound, line 138. *)
Definition rescale (mi ma min_price max_price val : float) : float :=
  (((val - mi) / (ma - mi)) * (max_price - min_price) + min_price)%float.

Section Grid.
Context `{Random}.

(** [for _ in range(n): bounds.append(random.expovariate(lambda_param))] *)
Fixpoint draw (n : nat) (lambda_param : float) : M rng (list float) :=
  match n with
  | O => ret []
  | S n' =>
      (let* val := (fun g => let '(v, g') := expovariate lambda_param g in Returned v g') in
       let* rest := draw n' lambda_param in
       ret (val :: rest))%py
  end.

(** [generate_bucket_bounds]. A float division raises ZeroDivisionError
    when the divisor compares equal to zero, whatever the dividend. *)
Definition generate_bucket_bounds
    (lambda_param min_price max_price : float) (n_buckets : Z) : M rng (list float) :=
  (let* bounds := draw (Z.to_nat (n_buckets + 1)) lambda_param in
   match sort bounds with
   | [] => raise IndexError
   | mi :: rest =>
       let ma := last_of mi rest in
       if (ma - mi =? 0)%float then raise ZeroDivisionError
       else ret (map (rescale mi ma min_price max_price) (mi :: rest))
   end)%py.

(** [new_buckets]: [bounds] has [bucket_size + 1] entries, so [lhs] and
    [rhs] have [bucket_size] and no [lhs[i]] is out of range. *)
Definition new_buckets
    (lambda_param min_price max_price : float) (cfg : Config) : M rng (list Bucket.t) :=
  (let* bounds := generate_bucket_bounds lambda_param min_price max_price (bucket_size cfg) in
   let lhs := removelast bounds in
   let rhs := tail bounds in
   ret (take (Z.to_nat (bucket_size cfg))
          (zip_with (fun l r => Bucket.init l r (buffer_size cfg) (cfg_discount cfg))
             lhs rhs)))%py.

(** The loop of [new_levels]. *)
Fixpoint new_levels_loop
    (lambdas : list float) (min_price max_price : float) (cfg : Config)
    : M rng (list Level.t) :=
  match lambdas with
  | [] => ret []
  | lam :: lambdas' =>
      (let* buckets := new_buckets lam min_price max_price cfg in
       let* levels := new_levels_loop lambdas' min_price max_price cfg in
       ret (Level.init buckets :: levels))%py
  end.

(** [new_levels] *)
Definition new_levels (min_price max_price : float) (cfg : Config) : M rng (list Level.t) :=
  (let* lambdas := linspace (level_size cfg) in
   new_levels_loop lambdas min_price max_price cfg)%py.

End Grid.

(** A generator that replays a given list of draws. *)
Definition replay : Random :=
  {| rng := list float;
     expovariate := fun _ g => match g with
                               | [] => (0%float, [])
                               | v :: g' => (v, g')
                               end |}.



End B64.







(** ** The server *)

(** One entry of [request_store]. *)
Record Entry : Type := mkEntry {
  entry_price : Q;
  entry_floor_price : Q;
  attempts : Z;
  impressions : Z;
  entry_context_hash : string;
  entry_data_center : string;
  entry_ad_format : string;
  entry_pub_id : string;
  entry_bundle_id : string;
  entry_tag_id : string;
  entry_cc : string
}.

Definition set_attempts (f : Z -> Z) (e : Entry) : Entry :=
  mkEntry (entry_price e) (entry_floor_price e) (f (attempts e)) (impressions e)
    (entry_context_hash e) (entry_data_center e) (entry_ad_format e) (entry_pub_id e)
    (entry_bundle_id e) (entry_tag_id e) (entry_cc e).
Definition set_impressions (f : Z -> Z) (e : Entry) : Entry :=
  mkEntry (entry_price e) (entry_floor_price e) (attempts e) (f (impressions e))
    (entry_context_hash e) (entry_data_center e) (entry_ad_format e) (entry_pub_id e)
    (entry_bundle_id e) (entry_tag_id e) (entry_cc e).

(** The module-level state of [server.py]. *)
Record Server : Type := mkServer {
  spaces_dict : gmap string Space.t;
  request_store : gmap string Entry
}.

Definition set_spaces_dict
    (f : gmap string Space.t -> gmap string Space.t) (st : Server) : Server :=
  mkServer (f (spaces_dict st)) (request_store st).
Definition set_request_store
    (f : gmap string Entry -> gmap string Entry) (st : Server) : Server :=
  mkServer (spaces_dict st) (f (request_store st)).

Definition EXPLORATION_ROUNDS : Z := 3.

(** The JSON body of an optimize request after [data.get]: [id] is the
    empty string when absent, [price] and [floor_price] are [None] when
    absent, and [ctx_hash] is ["default_ctx"] when absent. *)
Record OptimizeData : Type := mkOptimizeData {
  opt_id : string;
  opt_price : option Q;
  opt_floor_price : option Q;
  opt_ctx_hash : string;
  opt_data_center : string;
  opt_ext_ad_format : string;
  opt_app_publisher_id : string;
  opt_bundle_id : string;
  opt_tag_id : string;
  opt_device_geo_country : string
}.

(** The JSON body of a feedback request after [data.get]. *)
Record FeedbackData : Type := mkFeedbackData {
  fb_id : string;
  fb_price : option Q;
  fb_impression : option bool
}.

Inductive Status : Type := explored | optimized | error.

(** What a handler hands to [jsonify], with the HTTP code. *)
Inductive Response : Type :=
| BadRequest (message : string)                     (* {"error": _}, 400 *)
| Optimized (optimized_price : Q) (status : Status) (* 200 *)
| Ack (ack : bool).                                 (* {"ack": _}, 200 *)

(** [max(a, b)] of Python: the first of the largest arguments. *)
Definition py_max (a b : Q) : Q := if Qlt_le_dec a b then b else a.

(** The entry that [optimize] stores for a request id it has not seen. *)
Definition new_entry (data : OptimizeData) (price floor_price : Q) : Entry :=
  {| entry_price := price;
     entry_floor_price := floor_price;
     attempts := 0;
     impressions := 0;
     entry_context_hash := opt_ctx_hash data;
     entry_data_center := opt_data_center data;
     entry_ad_format := opt_ext_ad_format data;
     entry_pub_id := opt_app_publisher_id data;
     entry_bundle_id := opt_bundle_id data;
     entry_tag_id := opt_tag_id data;
     entry_cc := opt_device_geo_country data |}.

(** Lines 123 to 129: the status, from the entry after the increment. *)
Definition status_of (state : Entry) : Status :=
  if attempts state <=? EXPLORATION_ROUNDS then explored
  else if impressions state >? 0 then optimized
  else explored.

(** [optimize]; [None] is a request without a (non-empty) JSON body.
    The numbers are exact here; the conversion of an int price to a
    float at line 120, which can raise, is added in [optimize_py]. *)
Definition optimize (data : option OptimizeData) : M Server Response :=
  match data with
  | None => ret (BadRequest "Invalid JSON")
  | Some data =>
      let req_id := opt_id data in
      let missing_fields :=
        (if String.eqb req_id EmptyString then ["id"] else []) ++
        (if opt_price data is None then ["price"] else []) ++
        (if opt_floor_price data is None then ["floor_price"] else []) in
      match missing_fields, opt_price data, opt_floor_price data with
      | [], Some price, Some floor_price =>
          let ctx_hash := opt_ctx_hash data in
          (let* st := get in
           if negb (bool_decide (is_Some (spaces_dict st !! ctx_hash)))
           then ret (BadRequest ("Unknown context " ++ ctx_hash))
           else if Qlt_le_dec price floor_price
           then ret (Optimized 0.0 error)
           else
             (if negb (bool_decide (is_Some (request_store st !! req_id)))
              then modify (set_request_store (fun rs =>
                     <[req_id := new_entry data price floor_price]> rs))
              else ret tt) ;;
             modify (set_request_store (fun rs => alter (set_attempts (fun n => n + 1)) req_id rs)) ;;
             let* state := (fun st => or_raise KeyError (request_store st !! req_id) st) in
             let candidate_price := (price * 0.9)%Q in
             let optimized_price := py_max candidate_price floor_price in
             ret (Optimized optimized_price (status_of state)))%py
      | _, _, _ =>
          ret (BadRequest ("Missing required fields: " ++ String.concat ", " missing_fields))
      end
  end.

(** Run a method of the object [spaces_dict[ctx]]. *)
Definition at_space {A} (ctx : string) (c : M Space.t A) : M Server A :=
  fun st =>
    match spaces_dict st !! ctx with
    | None => Raised KeyError st
    | Some sp =>
        match c sp with
        | Returned a sp' => Returned a (set_spaces_dict (fun d => <[ctx := sp']> d) st)
        | Raised e sp' => Raised e (set_spaces_dict (fun d => <[ctx := sp']> d) st)
        end
    end.

(** [feedback] *)
Definition feedback (data : option FeedbackData) : M Server Response :=
  match data with
  | None => ret (BadRequest "Invalid JSON")
  | Some data =>
      let req_id := fb_id data in
      let missing_fields :=
        (if String.eqb req_id EmptyString then ["id"] else []) ++
        (if fb_price data is None then ["price"] else []) ++
        (if fb_impression data is None then ["impression"] else []) in
      match missing_fields, fb_price data, fb_impression data with
      | [], Some price, Some impression =>
          (let* st := get in
           match request_store st !! req_id with
           | None => ret (Ack false)
           | Some state =>
               modify (set_request_store (fun rs =>
                 alter (set_impressions (fun n => n + 1)) req_id rs)) ;;
               let ctx_hash := entry_context_hash state in
               at_space ctx_hash
                 (let* lvls := gets Space.levels in
                  let buckets_indices := map (fun lvl => Level.sample_buckets lvl price) lvls in
                  Space.update_feedback buckets_indices impression) ;;
               ret (Ack true)
           end)%py
      | _, _, _ =>
          ret (BadRequest ("Missing fields: " ++ String.concat ", " missing_fields))
      end
  end.

Section Recalibrator.
Context `{Learner}.

(** One pass of the [while True] loop of [background_learning], up to
    the sleep. The spaces do not share state, so the pass leaves the
    same state whatever the order in which the dictionary yields them. *)
Definition learning_cycle : M Server unit :=
  (let* spaces := gets spaces_dict in
   for_each (map fst (map_to_list spaces)) (fun ctx =>
     try_except (at_space ctx Space.learn)))%py.

(** [background_learning], stopped after [cycles] passes. *)
Fixpoint background_learning (cycles : nat) : M Server unit :=
  match cycles with
  | O => ret tt
  | S n => (learning_cycle ;; background_learning n)%py
  end.

End Recalibrator.

(** The requests the server receives, handled one at a time. *)
Inductive Request : Type :=
| Optimize (data : option OptimizeData)
| Feedback (data : option FeedbackData).

Definition handle (r : Request) : M Server Response :=
  match r with
  | Optimize data => optimize data
  | Feedback data => feedback data
  end.

(** *** Prices beyond the binary64 range

    [price * 0.9] at line 120 multiplies the JSON number by a float. A
    JSON number written as an integer is a Python int of any size, and
    the multiplication converts it to a float first: the conversion
    raises OverflowError for an int that rounds to [2^1024] or beyond,
    that is from [2^1024 - 2^970] on. By then the ledger entry has been
    written and its attempts counted. A number of that size written with
    a fraction or an exponent is parsed to [inf], which the rationals of
    this model do not have: a price of the model beyond the range is an
    int. No other line of the handlers does arithmetic on a number of
    the request. *)
Definition int_too_large (price : Q) : bool :=
  Qle_bool (inject_Z (2 ^ 1024 - 2 ^ 970)) (Qabs price).

(** [optimize] with that conversion. The replies with the status
    [explored] or [optimized] are those of line 137, after line 120;
    every other reply is returned before it. *)
Definition optimize_py (data : option OptimizeData) : M Server Response :=
  match data with
  | Some d =>
      match opt_price d with
      | Some price =>
          (let* reply := optimize data in
           match reply with
           | Optimized _ explored | Optimized _ optimized =>
               if int_too_large price then raise OverflowError else ret reply
           | _ => ret reply
           end)%py
      | None => optimize data
      end
  | None => optimize data
  end.

(** The handlers as the interpreter runs them. *)
Definition handle_py (r : Request) : M Server Response :=
  match r with
  | Optimize data => optimize_py data
  | Feedback data => feedback data
  end.

(** The replies to a sequence of requests and the state they leave. An
    exception in a handler is answered by the framework ([None]), and the
    mutations the handler made before it stay. *)
Fixpoint serve (requests : list Request) (st : Server) : list (option Response) * Server :=
  match requests with
  | [] => ([], st)
  | r :: requests' =>
      let res := handle r st in
      let reply := if res is Returned a _ then Some a else None in
      let '(replies, st') := serve requests' (state_of res) in
      (reply :: replies, st')
  end.

(** ** Threads on one Space

    The feedback handlers and the learning thread run in one process.
    A thread is a sequence of steps; the interpreter may switch threads
    between two steps and never inside one. [Acquire] and [Release] are
    the entry and exit of [with self.lock]; a step that raises ends its
    thread, and leaving the [with] block releases the lock. *)

#[warnings="-register-all"]
Inductive thread : Type :=
| Done
| Acquire (k : thread)
| Release (k : thread)
| Step (c : M Space.t thread).

(** [Space.update_feedback] as called by the feedback handler. *)
Definition update_feedback_thread (buckets_indices : list Z) (impression : bool) : thread :=
  Acquire (Step (Space.update_feedback buckets_indices impression ;; ret (Release Done))%py).

Section LearnThread.
Context `{Learner}.

(** The iterations of [Space.learn] for the levels [indices]: lines 95
    to 113 are one step and line 115 is the next; [learn] has no [with].
    The interpreter may also switch inside these steps, so every run of
    this model is a run of the program. *)
Fixpoint learn_thread_from (indices : list nat) : thread :=
  match indices with
  | [] => Done
  | i :: rest =>
      Step (let* fitted := Space.fit i in
            ret (if fitted : bool
                 then Step (Space.clear i ;; ret (learn_thread_from rest))
                 else learn_thread_from rest))%py
  end.

(** [Space.learn] as called by [background_learning]. *)
Definition learn_thread : thread :=
  Step (let* lvls := gets Space.levels in
        ret (learn_thread_from (seq 0 (length lvls))))%py.

End LearnThread.

(** The threads, the owner of the lock and the Space they share. *)
Record Pool : Type := mkPool {
  threads : list thread;
  lock : option nat;
  shared : Space.t
}.

(** Thread [tid] takes its next step; a thread waiting for the lock, or a
    finished one, stays where it is. *)
Definition step (tid : nat) (p : Pool) : Pool :=
  match threads p !! tid with
  | None | Some Done => p
  | Some (Acquire k) =>
      match lock p with
      | None => mkPool (<[tid := k]> (threads p)) (Some tid) (shared p)
      | Some _ => p
      end
  | Some (Release k) => mkPool (<[tid := k]> (threads p)) None (shared p)
  | Some (Step c) =>
      match c (shared p) with
      | Returned k sp => mkPool (<[tid := k]> (threads p)) (lock p) sp
      | Raised _ sp =>
          mkPool (<[tid := Done]> (threads p))
            (if bool_decide (lock p = Some tid) then None else lock p) sp
      end
  end.

(** The run that a schedule (the thread to step, in turn) produces. *)
Definition run (schedule : list nat) (p : Pool) : Pool :=
  fold_left (fun p tid => step tid p) schedule p.

(** One thread alone, stepped [fuel] times. *)
Definition run_alone (fuel : nat) (th : thread) (sp : Space.t) : Space.t :=
  shared (run (replicate fuel 0%nat) (mkPool [th] None sp)).

Definition all_done (p : Pool) : bool :=
  forallb (fun th => if th is Done then true else false) (threads p).

(** ** Instances used in the examples *)

(** A generator that replays a given list of draws. *)
Definition replay : Random :=
  {| rng := list Q;
     expovariate := fun _ g => match g with
                               | [] => (0%Q, [])
                               | v :: g' => (v, g')
                               end |}.

(** A learner whose model is the number of rows it was trained on and
    which predicts that number. *)
Definition counting_learner : Learner :=
  {| model := nat;
     train := fun X _ => Some (length X);
     predict := fun m _ _ => Some (inject_Z (Z.of_nat m)) |}.

(** A learner with an injected fault: its training raises on a training
    set whose labels are all wins. lightgbm is not part of the sources,
    and the interface leaves open when it raises; lightgbm itself trains
    on such a set. The fault stands for any exception out of
    [lgb.train], chosen by the samples so that an example can have one
    level fail and another train. *)
Definition faulty_learner : Learner :=
  {| model := nat;
     train := fun X y => if forallb (Z.eqb 1) y then None else Some (length X);
     predict := fun m _ _ => Some (inject_Z (Z.of_nat m)) |}.

Definition example_config : Config :=
  {| level_size := 2; bucket_size := 5; buffer_size := 10; cfg_discount := 0.5 |}.

(** Two draws of six values, one per level. *)
Definition example_draws : list Q :=
  [3; 1; 2; 6; 4; 5; 0.5; 0.1; 0.2; 2.5; 0.3; 1.1]%Q.

Definition example_sample (impression : Z) : Sample :=
  {| sample_pr := 0.5; sample_price := 1.5; sample_impression := impression |}.

(** A Space of two levels of one bucket each; level 0 holds ten samples
    that are all wins, level 1 holds ten samples of both classes. *)
Definition example_space : Space.t :=
  let lvl := Level.init [Bucket.init 1 2 10 0.5] in
  {| Space.context_hash := "ctx";
     Space.levels := [lvl; lvl];
     Space.learning_data :=
       <[0%nat := replicate 10 (example_sample 1)]>
         (<[1%nat := example_sample 0 :: replicate 9 (example_sample 1)]> ∅) |}.

(** The same Space with mixed samples on level 0 too. *)
Definition trainable_space : Space.t :=
  Space.set_learning_data
    (fun ld => <[0%nat := example_sample 0 :: replicate 9 (example_sample 1)]> ld)
    example_space.

(** The example Space the other way round: level 0 holds mixed samples
    and level 1 holds wins only. *)
Definition late_failure_space : Space.t :=
  Space.set_learning_data
    (fun ld => <[0%nat := example_sample 0 :: replicate 9 (example_sample 1)]>
                 (<[1%nat := replicate 10 (example_sample 1)]> ld))
    example_space.

Definition example_server : Server :=
  {| spaces_dict := {[ "ctx" := example_space ]}; request_store := ∅ |}.

Definition example_optimize (price floor_price : Q) : OptimizeData :=
  {| opt_id := "r1"; opt_price := Some price; opt_floor_price := Some floor_price;
     opt_ctx_hash := "ctx"; opt_data_center := "dc"; opt_ext_ad_format := "banner";
     opt_app_publisher_id := "pub"; opt_bundle_id := "bundle"; opt_tag_id := "tag";
     opt_device_geo_country := "US" |}.

Definition example_feedback (id : string) : FeedbackData :=
  {| fb_id := id; fb_price := Some 1.5%Q; fb_impression := Some true |}.

(** A server with two contexts: under the one-class learner the
    training of level 0 of ["a"] raises, and ["b"] trains. *)
Definition two_space_server : Server :=
  {| spaces_dict := <["a" := example_space]> {[ "b" := trainable_space ]};
     request_store := ∅ |}.

(** The learning thread and one feedback call for a price that falls in
    bucket 0 of both levels, on the Space whose levels both train. *)
Definition example_pool : Pool :=
  {| threads := [@learn_thread counting_learner; update_feedback_thread [0; 0] true];
     lock := None;
     shared := trainable_space |}.

(** ** Predicates used in the statements *)

(** How many entries of the window are the outcome [o]. *)
Fixpoint tally (o : bool) (l : list bool) : Z :=
  match l with
  | [] => 0
  | x :: l' => (if Bool.eqb o x then 1 else 0) + tally o l'
  end.

(** The counts are the prior plus the tallies of the window. *)
Record counts_inv (b : Bucket.t) : Prop := {
  inv_alpha : (Bucket.alpha b == 1 + inject_Z (tally true (Bucket.buffer b)))%Q;
  inv_beta : (Bucket.beta b == 1 + inject_Z (tally false (Bucket.buffer b)))%Q
}.

(** The window holds the last [min(update_qty, size)] outcomes. *)
Record window_inv (b : Bucket.t) : Prop := {
  inv_qty : 0 <= Bucket.update_qty b;
  inv_len : Z.of_nat (length (Bucket.buffer b)) = Z.min (Bucket.update_qty b) (Bucket.size b)
}.

(** [s'] differs from [s] at most in level [j] and its sample list. *)
Definition same_elsewhere (j : nat) (s s' : Space.t) : Prop :=
  length (Space.levels s') = length (Space.levels s) /\
  forall i, i <> j ->
    Space.levels s' !! i = Space.levels s !! i /\
    Space.learning_data s' !! i = Space.learning_data s !! i.

(** No entry of the ledger has a negative impression count. *)
Definition ledger_wf (st : Server) : Prop :=
  forall id e, request_store st !! id = Some e -> 0 <= impressions e.

(** The pass of [learn] comes to level [i] in state [sp_i]: the
    iterations for the levels before [i] have returned. *)
Definition reaches `{Learner} (sp : Space.t) (i : nat) (sp_i : Space.t) : Prop :=
  for_each (seq 0 i) Space.learn_level sp = Returned tt sp_i.

(** ** The curve snapshot *)

(** One entry of the ["level"] list that [Space.WC] returns. *)
Record LevelEstimation : Type := mkLevelEstimation {
  est_price : list Q;
  est_pr : list Q
}.

(** The inner loop of [WC] for one level; [None] is the IndexError of
    [lvl.winning_curve[...]]. Bucket defines no [__eq__], so
    [lvl.buckets.index(b)] finds the object [b] itself, at its own
    position in the list. *)
Definition level_estimation (lvl : Level.t) : option LevelEstimation :=
  prs ← mapM (fun j => Level.winning_curve lvl !! j) (seq 0 (length (Level.buckets lvl)));
  Some {| est_price := map (fun b => Bucket.lhs b + (Bucket.rhs b - Bucket.lhs b) / 2)%Q
                         (Level.buckets lvl);
          est_pr := prs |}.

(** [Space.WC] *)
Definition WC : M Space.t (list LevelEstimation) :=
  fun sp => or_raise IndexError (mapM level_estimation (Space.levels sp)) sp.

(** What [space_endpoint] hands to [jsonify]: [{}] or the estimation. *)
Inductive SpaceReply : Type :=
| NoSpace
| Estimation (level : list LevelEstimation).

(** [space_endpoint], for the value of the [ctx] query parameter
    (["default_ctx"] when absent). *)
Definition space_endpoint (ctx : string) : M Server SpaceReply :=
  fun st =>
    match spaces_dict st !! ctx with
    | None => Returned NoSpace st
    | Some sp =>
        match WC sp with
        | Returned learned_estimation _ => Returned (Estimation learned_estimation) st
        | Raised e _ => Raised e st
        end
    end.

(** The two ends of each bucket and the curve: what [WC] reads. *)
Definition geometry (lvl : Level.t) : list (Q * Q) * list Q :=
  (map (fun b => (Bucket.lhs b, Bucket.rhs b)) (Level.buckets lvl),
   Level.winning_curve lvl).

(** What a computation answers, whatever state it leaves. *)
Definition value_of {S A} (r : result S A) : A + exn :=
  match r with
  | Returned a _ => inl a
  | Raised e _ => inr e
  end.

(** ** The life of the server *)

(** What happens to the server once it is loaded: a request, a query of
    the curve snapshot, or a pass of the background loop. *)
Inductive Event : Type :=
| Call (r : Request)
| Snapshot (ctx : string)
| Cycle.

Section Life.
Context `{Learner}.

Definition occur (e : Event) : M Server unit :=
  match e with
  | Call r => (handle_py r ;; ret tt)%py
  | Snapshot ctx => (space_endpoint ctx ;; ret tt)%py
  | Cycle => learning_cycle
  end.

(** The state after the events, each left as it ends, raised or not. *)
Definition after (events : list Event) (st : Server) : Server :=
  fold_left (fun st e => state_of (occur e st)) events st.

(** No event of the sequence raised. *)
Fixpoint all_return (events : list Event) (st : Server) : bool :=
  match events with
  | [] => true
  | e :: es => returned (occur e st) && all_return es (state_of (occur e st))
  end.

End Life.

(** The price of an optimize call, if it has one, converts to a float. *)
Definition price_fits (e : Event) : Prop :=
  match e with
  | Call (Optimize (Some data)) =>
      if opt_price data is Some price then int_too_large price = false else True
  | _ => True
  end.

(** The body of the loop of [update_feedback] for level [i]. *)
Definition update_feedback_at (impression : bool) (i : nat) (bID : Z) : M Space.t unit :=
  if bID =? -1 then ret tt
  else
    (Space.at_bucket i bID (Bucket.update impression) ;;
     let* data := Space.data_at i in
     let* b := Space.at_bucket i bID get in
     modify (Space.set_learning_data (fun ld =>
       <[i := data ++ [ {| sample_pr := Bucket.pr b;
                           sample_price := (Bucket.lhs b + Bucket.rhs b) / 2;
                           sample_impression := if impression then 1 else 0 |} ]]> ld)))%py.

(** ** Well-formed states *)

(** The checks of [load_spaces] pass. *)
Definition valid_config (cfg : Config) : Prop :=
  MIN_LEVEL_SIZE <= level_size cfg /\ MIN_BUCKET_SIZE <= bucket_size cfg /\
  MIN_BUFFER_SIZE <= buffer_size cfg /\ (0 <= cfg_discount cfg <= 1)%Q.

(** A Bucket as the construction and [update] leave it. *)
Record bucket_ok (b : Bucket.t) : Prop := {
  ok_size : 1 <= Bucket.size b;
  ok_discount : (0 <= Bucket.discount b <= 1)%Q;
  ok_pr : (0 <= Bucket.pr b <= 1)%Q;
  ok_counts : counts_inv b;
  ok_window : window_inv b
}.

(** A Level with one curve entry per consistent bucket. *)
Record level_ok (lvl : Level.t) : Prop := {
  ok_curve : length (Level.winning_curve lvl) = length (Level.buckets lvl);
  ok_buckets : Forall bucket_ok (Level.buckets lvl)
}.

(** A Space of such levels, with a sample list for each. *)
Record space_wf (sp : Space.t) : Prop := {
  wf_levels : Forall level_ok (Space.levels sp);
  wf_data : forall i, (i < length (Space.levels sp))%nat ->
                      is_Some (Space.learning_data sp !! i)
}.

(** A server of such Spaces whose ledger entries name known contexts. *)
Record server_wf (st : Server) : Prop := {
  wf_spaces : forall ctx sp, spaces_dict st !! ctx = Some sp -> space_wf sp;
  wf_ledger : forall id e, request_store st !! id = Some e ->
                           is_Some (spaces_dict st !! entry_context_hash e)
}.

(** What one feedback call has done to the sample list of level [i]. *)
Definition fed (impression : bool) (bID : option Z)
    (before after : option (list Sample)) : Prop :=
  match bID with
  | Some bID =>
      if decide (bID = -1) then after = before
      else exists data s,
             before = Some data /\ after = Some (data ++ [s]) /\
             sample_impression s = (if impression then 1 else 0)
  | None => after = before
  end.

(** A Space as [load_spaces] builds it for [cfg]: fresh buckets in fresh
    levels, and an empty sample list for each level. *)
Definition fresh_bucket (cfg : Config) (b : Bucket.t) : Prop :=
  exists lhs rhs, b = Bucket.init lhs rhs (buffer_size cfg) (cfg_discount cfg).

Definition fresh_level (cfg : Config) (lvl : Level.t) : Prop :=
  exists buckets,
    lvl = Level.init buckets /\
    length buckets = Z.to_nat (bucket_size cfg) /\
    Forall (fresh_bucket cfg) buckets.

Definition fresh_space (cfg : Config) (ctx : string) (sp : Space.t) : Prop :=
  exists levels,
    sp = Space.init ctx levels /\
    length levels = Z.to_nat (level_size cfg) /\
    Forall (fresh_level cfg) levels.

(** Two descriptions and a range map that overrides the second. *)
Definition example_descs : list SpaceDesc :=
  [ {| desc_context_hash := "a"; desc_min_price := Some 1%Q; desc_max_price := Some 2%Q |};
    {| desc_context_hash := "b"; desc_min_price := None; desc_max_price := None |} ].

Definition example_buckets_map : gmap string (Q * Q) := {[ "b" := (0.5, 1.5)%Q ]}.

(** A Space as it is built: one level of one bucket over [1, 2]. *)
Definition small_space : Space.t :=
  Space.init "ctx" [Level.init [Bucket.init 1 2 10 0.5]].

(** A short life: an optimize call, its feedback, a pass of the loop and
    a look at the snapshot, for context ["a"]. *)
Definition example_events : list Event :=
  [ Call (Optimize (Some {| opt_id := "r1"; opt_price := Some 1.5%Q;
                            opt_floor_price := Some 1.2%Q; opt_ctx_hash := "a";
                            opt_data_center := "dc"; opt_ext_ad_format := "banner";
                            opt_app_publisher_id := "pub"; opt_bundle_id := "bundle";
                            opt_tag_id := "tag"; opt_device_geo_country := "US" |}));
    Call (Feedback (Some (example_feedback "r1")));
    Cycle;
    Snapshot "a" ].

(** An optimize call whose price is the int [10^400]. *)
Definition huge_price_call : Event :=
  Call (Optimize (Some {| opt_id := "r2"; opt_price := Some (inject_Z (10 ^ 400));
                          opt_floor_price := Some 1%Q; opt_ctx_hash := "a";
                          opt_data_center := "dc"; opt_ext_ad_format := "banner";
                          opt_app_publisher_id := "pub"; opt_bundle_id := "bundle";
                          opt_tag_id := "tag"; opt_device_geo_country := "US" |})).

(** A request that the handlers answer with 400: no JSON body, no id, a
    missing number or outcome, or (for optimize) an unknown context. *)
Definition malformed (r : Request) (st : Server) : Prop :=
  match r with
  | Optimize None | Feedback None => True
  | Optimize (Some data) =>
      opt_id data = EmptyString \/ opt_price data = None \/ opt_floor_price data = None \/
      spaces_dict st !! opt_ctx_hash data = None
  | Feedback (Some data) =>
      fb_id data = EmptyString \/ fb_price data = None \/ fb_impression data = None
  end.

(** The prediction that [learn] asks of a model for a bucket. *)
Definition predicted `{Learner} (m : model) (b : Bucket.t) : option Q :=
  predict m (Bucket.pr b) ((Bucket.lhs b + Bucket.rhs b) / 2)%Q.

(** * Properties *)

(** ** Bucket.update *)

Lemma pop_None {A} (l : list A) : pop l = None -> l = [].
Proof. destruct l as [|x l]; [done|]. simpl. destruct (pop l) as [[r y]|]; done. Qed.

Lemma pop_Some {A} (l r : list A) (x : A) : pop l = Some (r, x) -> l = r ++ [x].
Proof.
  revert r x. induction l as [|a l IH]; intros r x; simpl; [done|].
  destruct (pop l) as [[r' y]|] eqn:E.
  - intros [= <- <-]. simpl. f_equal. by apply IH.
  - intros [= <- <-]. by rewrite (pop_None l E).
Qed.

Lemma tally_app o l1 l2 : tally o (l1 ++ l2) = tally o l1 + tally o l2.
Proof. induction l1 as [|x l1 IH]; simpl; lia. Qed.

Lemma tally_total l : tally true l + tally false l = Z.of_nat (length l).
Proof. induction l as [|[] l IH]; simpl in *; lia. Qed.

Lemma tally_nonneg o l : 0 <= tally o l.
Proof. induction l as [|x l IH]; simpl; [lia | destruct (Bool.eqb o x); lia]. Qed.

Lemma ratio_bounds (a b : Q) : (1 <= a -> 1 <= b -> 0 <= a / (a + b) <= 1)%Q.
Proof.
  intros Ha Hb. assert (0 < a + b)%Q by lra.
  split; [apply Qle_shift_div_l | apply Qle_shift_div_r]; lra.
Qed.

Lemma blend_bounds (d p r : Q) :
  (0 <= d <= 1 -> 0 <= p <= 1 -> 0 <= r <= 1 -> 0 <= d * p + (1 - d) * r <= 1)%Q.
Proof. intros. split; nra. Qed.

Lemma inject_tally_nonneg o l : (0 <= inject_Z (tally o l))%Q.
Proof. change 0%Q with (inject_Z 0). rewrite <- Zle_Qle. apply tally_nonneg. Qed.

Ltac unfold_update :=
  unfold Bucket.update, bind, modify, get, Bucket.buffer_pop, Bucket.win_ratio, ret;
  simpl.

(** Turn the tallies into atoms that [lra] can use. *)
Ltac q_norm :=
  cbn [tally Bool.eqb] in *;
  rewrite ?Z.add_0_r, ?Z.add_0_l, ?inject_Z_plus in *;
  change (inject_Z 1) with 1%Q in *; change (inject_Z 0) with 0%Q in *;
  repeat match goal with
         | H : context [inject_Z ?z] |- _ =>
             let x := fresh "t" in set (x := inject_Z z) in *; clearbody x
         end.

Ltac case_ratio E :=
  match goal with
  | |- context [Qeq_bool ?x 0] => destruct (Qeq_bool x 0) eqn:E
  end; cbn.

Ltac no_zero_division E := exfalso; apply Qeq_bool_eq in E; q_norm; lra.

(** The counts follow the window through one call, raising or not. *)
Lemma update_counts_inv (o : bool) (b : Bucket.t) :
  counts_inv b -> counts_inv (state_of (Bucket.update o b)).
Proof.
  intros [Ha Hb]. destruct b as [l r a b buf sz d p q]. simpl in *.
  unfold_update.
  destruct (Z.of_nat (length buf) >=? sz); cbn.
  - destruct (pop buf) as [[rest oldest]|] eqn:Epop; cbn; [|by split].
    apply pop_Some in Epop. subst buf.
    rewrite !tally_app in Ha, Hb.
    destruct oldest, o; cbn; case_ratio E; split; cbn; q_norm; lra.
  - destruct o; cbn; case_ratio E; split; cbn; q_norm; lra.
Qed.

(** The estimate stays a probability through one call, raising or not. *)
Lemma update_pr_bounds (o : bool) (b : Bucket.t) :
  (0 <= Bucket.discount b <= 1)%Q ->
  counts_inv b ->
  (0 <= Bucket.pr b <= 1)%Q ->
  (0 <= Bucket.pr (state_of (Bucket.update o b)) <= 1)%Q.
Proof.
  intros Hd [Ha Hb] Hp. destruct b as [l r a b buf sz d p q]. simpl in *.
  unfold_update.
  destruct (Z.of_nat (length buf) >=? sz); cbn.
  - destruct (pop buf) as [[rest oldest]|] eqn:Epop; cbn; [|done].
    apply pop_Some in Epop. subst buf.
    rewrite !tally_app in Ha, Hb.
    pose proof (inject_tally_nonneg true rest) as Ht.
    pose proof (inject_tally_nonneg false rest) as Hf.
    destruct oldest, o; cbn; case_ratio E; try done;
      (apply blend_bounds; [done | done | apply ratio_bounds; q_norm; lra]).
  - pose proof (inject_tally_nonneg true buf) as Ht.
    pose proof (inject_tally_nonneg false buf) as Hf.
    destruct o; cbn; case_ratio E; try done;
      (apply blend_bounds; [done | done | apply ratio_bounds; q_norm; lra]).
Qed.

(** What one call never touches. *)
Lemma update_frame (o : bool) (b : Bucket.t) :
  let b' := state_of (Bucket.update o b) in
  Bucket.size b' = Bucket.size b /\ Bucket.discount b' = Bucket.discount b /\
  Bucket.lhs b' = Bucket.lhs b /\ Bucket.rhs b' = Bucket.rhs b.
Proof.
  destruct b as [l r a b buf sz d p q]. unfold_update.
  destruct (Z.of_nat (length buf) >=? sz); cbn.
  - destruct (pop buf) as [[rest oldest]|] eqn:Epop; cbn; [|done].
    destruct oldest, o; cbn; case_ratio E; done.
  - destruct o; cbn; case_ratio E; done.
Qed.

(** With a capacity of at least one, a call on a bucket whose counts and
    window are consistent returns and keeps the window consistent. *)
Lemma update_returns (o : bool) (b : Bucket.t) :
  1 <= Bucket.size b ->
  counts_inv b ->
  window_inv b ->
  returned (Bucket.update o b) = true /\
  window_inv (state_of (Bucket.update o b)) /\
  Bucket.update_qty (state_of (Bucket.update o b)) = Bucket.update_qty b + 1.
Proof.
  intros Hs [Ha Hb] [Hq Hl]. destruct b as [l r a b buf sz d p q]. simpl in *.
  unfold_update. rewrite Z.geb_leb.
  destruct (Z.leb_spec sz (Z.of_nat (length buf))) as [Efull|Efull]; cbn.
  - destruct (pop buf) as [[rest oldest]|] eqn:Epop; cbn.
    2:{ apply pop_None in Epop. subst buf. simpl in *. lia. }
    apply pop_Some in Epop. subst buf.
    rewrite !tally_app in Ha, Hb.
    pose proof (inject_tally_nonneg true rest) as Ht.
    pose proof (inject_tally_nonneg false rest) as Hf.
    rewrite length_app in Hl, Efull. simpl in Hl, Efull.
    destruct oldest, o; cbn; case_ratio E; try no_zero_division E;
      (split; [done | split; [split; cbn; lia | lia]]).
  - pose proof (inject_tally_nonneg true buf) as Ht.
    pose proof (inject_tally_nonneg false buf) as Hf.
    destruct o; cbn; case_ratio E; try no_zero_division E;
      (split; [done | split; [split; cbn; lia | lia]]).
Qed.

Lemma updates_counts_inv (outcomes : list bool) (b : Bucket.t) :
  counts_inv b -> counts_inv (Bucket.updates outcomes b).
Proof.
  revert b. induction outcomes as [|o os IH]; intros b Hc; simpl; [done|].
  apply IH. by apply update_counts_inv.
Qed.

Lemma updates_pr_bounds (outcomes : list bool) (b : Bucket.t) :
  (0 <= Bucket.discount b <= 1)%Q ->
  counts_inv b ->
  (0 <= Bucket.pr b <= 1)%Q ->
  (0 <= Bucket.pr (Bucket.updates outcomes b) <= 1)%Q.
Proof.
  revert b. induction outcomes as [|o os IH]; intros b Hd Hc Hp; simpl; [done|].
  destruct (update_frame o b) as (_ & Ed & _).
  apply IH.
  - by rewrite Ed.
  - by apply update_counts_inv.
  - by apply update_pr_bounds.
Qed.

Lemma updates_window_inv (outcomes : list bool) (b : Bucket.t) :
  1 <= Bucket.size b ->
  counts_inv b ->
  window_inv b ->
  Bucket.updates_return outcomes b = true /\
  window_inv (Bucket.updates outcomes b) /\
  Bucket.update_qty (Bucket.updates outcomes b)
    = Bucket.update_qty b + Z.of_nat (length outcomes) /\
  Bucket.size (Bucket.updates outcomes b) = Bucket.size b.
Proof.
  revert b. induction outcomes as [|o os IH]; intros b Hs Hc Hw.
  - simpl. repeat split; try apply Hw. lia.
  - destruct (update_returns o b Hs Hc Hw) as (Hr & Hw' & Hq).
    destruct (update_frame o b) as (Es & _).
    destruct (IH (state_of (Bucket.update o b))) as (Hr' & Hw'' & Hq' & Es').
    + by rewrite Es.
    + by apply update_counts_inv.
    + done.
    + cbn [Bucket.updates_return]. rewrite Hr, Hr'.
      change (Bucket.updates (o :: os) b)
        with (Bucket.updates os (state_of (Bucket.update o b))).
      repeat split; try apply Hw''; [|congruence].
      rewrite Hq', Hq. simpl length. lia.
Qed.

Lemma init_counts_inv lhs rhs size discount :
  counts_inv (Bucket.init lhs rhs size discount).
Proof. by split. Qed.

Lemma init_window_inv lhs rhs size discount :
  1 <= size -> window_inv (Bucket.init lhs rhs size discount).
Proof. intros Hs. split; simpl; lia. Qed.

(** C2. A Bucket as the grid construction builds it has a window capacity
    of at least one (the configuration check demands ten). Whatever
    outcomes are fed to such a Bucket, every call of [update] returns, and
    after the calls [alpha + beta] is [len(buffer) + 2], the length of the
    buffer is [min(update_qty, size)], where [update_qty] is the number of
    calls so far, and the buffer is no longer than [size]. *)
Theorem update_counts_match_window
    (lhs rhs : Q) (size : Z) (discount : Q) (outcomes : list bool) :
  1 <= size ->
  let b0 := Bucket.init lhs rhs size discount in
  let b := Bucket.updates outcomes b0 in
  Bucket.updates_return outcomes b0 = true /\
  Bucket.update_qty b = Z.of_nat (length outcomes) /\
  (Bucket.alpha b + Bucket.beta b
     == inject_Z (Z.of_nat (length (Bucket.buffer b))) + 2)%Q /\
  (inject_Z (Z.of_nat (length (Bucket.buffer b))) + 2
     == inject_Z (Z.min (Bucket.update_qty b) (Bucket.size b)) + 2)%Q /\
  Z.of_nat (length (Bucket.buffer b)) <= Bucket.size b.
Proof.
  intros Hs b0 b.
  destruct (updates_window_inv outcomes b0 Hs (init_counts_inv _ _ _ _)
              (init_window_inv _ _ _ _ Hs)) as (Hr & [Hq Hl] & Hn & Es).
  destruct (updates_counts_inv outcomes b0 (init_counts_inv _ _ _ _)) as [Ha Hb].
  fold b in Hq, Hl, Hn, Es, Ha, Hb.
  repeat split.
  - exact Hr.
  - rewrite Hn. simpl. lia.
  - rewrite Ha, Hb, <- tally_total, inject_Z_plus. lra.
  - by rewrite Hl.
  - lia.
Qed.

Lemma update_counts_match_window_witness :
  1 <= 10 /\
  let b0 := Bucket.init 1 2 10 0.5 in
  let b := Bucket.updates (replicate 12 true) b0 in
  Bucket.updates_return (replicate 12 true) b0 = true /\
  Bucket.update_qty b = Z.of_nat (length (replicate 12 true)) /\
  (Bucket.alpha b + Bucket.beta b
     == inject_Z (Z.of_nat (length (Bucket.buffer b))) + 2)%Q /\
  (inject_Z (Z.of_nat (length (Bucket.buffer b))) + 2
     == inject_Z (Z.min (Bucket.update_qty b) (Bucket.size b)) + 2)%Q /\
  Z.of_nat (length (Bucket.buffer b)) <= Bucket.size b.
Proof.
  split; [lia|]. apply (update_counts_match_window 1 2 10 0.5 (replicate 12 true)). lia.
Defined.

(** Without capacity the first statement of [update] that pops the empty
    buffer raises, after the call counter has been incremented. *)
Example update_without_capacity :
  Bucket.update true (Bucket.init 1 2 0 0.5)
  = Raised IndexError (Bucket.set_update_qty (fun _ => 1) (Bucket.init 1 2 0 0.5)).
Proof. reflexivity. Qed.

(** C7. For a discount in [0,1] and any finite sequence of outcomes fed
    to a fresh Bucket, [pr] (0.5 at first) is within [0,1] after the
    calls; floats are read as exact rationals. *)
Theorem update_pr_in_unit_interval
    (lhs rhs : Q) (size : Z) (discount : Q) (outcomes : list bool) :
  (0 <= discount <= 1)%Q ->
  (0 <= Bucket.pr (Bucket.updates outcomes (Bucket.init lhs rhs size discount)) <= 1)%Q.
Proof.
  intros Hd. apply updates_pr_bounds; [done | apply init_counts_inv |].
  simpl. split; lra.
Qed.

Lemma update_pr_in_unit_interval_witness :
  (0 <= 0.5 <= 1)%Q /\
  (0 <= Bucket.pr (Bucket.updates [true; true; false]
                     (Bucket.init 1 2 10 0.5)) <= 1)%Q.
Proof.
  assert (Hd : (0 <= 0.5 <= 1)%Q) by (split; lra).
  split; [exact Hd|].
  exact (update_pr_in_unit_interval 1 2 10 0.5 [true; true; false] Hd).
Defined.

(** ** optimize and feedback *)

Lemma alter_as_insert {A} (f : A -> A) (k : string) (m : gmap string A) (x : A) :
  m !! k = Some x -> alter f k m = <[k := f x]> m.
Proof.
  intros Hx. apply map_eq. intros j.
  rewrite lookup_alter, lookup_insert. case_decide; [subst; by rewrite Hx | done].
Qed.

Lemma optimize_accepts (st : Server) (data : OptimizeData) (price floor_price : Q) :
  opt_id data <> EmptyString ->
  opt_price data = Some price ->
  opt_floor_price data = Some floor_price ->
  is_Some (spaces_dict st !! opt_ctx_hash data) ->
  (floor_price <= price)%Q ->
  let e := set_attempts (fun n => n + 1)
             (default (new_entry data price floor_price)
                (request_store st !! opt_id data)) in
  optimize (Some data) st
  = Returned (Optimized (py_max (price * 0.9) floor_price) (status_of e))
      (set_request_store (fun rs => <[opt_id data := e]> rs) st).
Proof.
  intros Hid Hp Hf Hctx Hle e. subst e. unfold optimize. rewrite Hp, Hf.
  apply String.eqb_neq in Hid. rewrite Hid. cbn [app].
  unfold bind, get, modify, ret, or_raise, raise. 
  rewrite (bool_decide_eq_true_2 _ Hctx). cbn [negb].
  destruct (Qlt_le_dec price floor_price) as [Hlt|_]; [lra|].
  destruct (request_store st !! opt_id data) as [e0|] eqn:E.
  - rewrite bool_decide_eq_true_2 by eauto. cbn.
    rewrite lookup_alter_eq, E. cbn. 
    unfold set_request_store. by rewrite (alter_as_insert _ _ _ _ E).
  - rewrite bool_decide_eq_false_2 by (intros [? ?]; congruence). cbn.
    rewrite lookup_alter_eq, lookup_insert_eq. cbn.
    unfold set_request_store. cbn.
    rewrite (alter_as_insert _ _ _ (new_entry data price floor_price)) by apply lookup_insert_eq.
    by rewrite insert_insert_eq.
Qed.

(** A feedback call for a known request id counts one impression, also
    when the update of the buckets raises afterwards; it stores nothing
    under a context that was not there. *)
Lemma feedback_known (st : Server) (data : FeedbackData) (price : Q) (impression : bool)
    (e : Entry) :
  fb_id data <> EmptyString ->
  fb_price data = Some price ->
  fb_impression data = Some impression ->
  request_store st !! fb_id data = Some e ->
  let st' := state_of (feedback (Some data) st) in
  request_store st' = <[fb_id data := set_impressions (fun n => n + 1) e]> (request_store st) /\
  forall ctx, is_Some (spaces_dict st' !! ctx) <-> is_Some (spaces_dict st !! ctx).
Proof.
  intros Hid Hp Hi He. unfold feedback. rewrite Hp, Hi.
  apply String.eqb_neq in Hid. rewrite Hid. cbn [app].
  unfold bind, get, ret, modify. rewrite He. unfold at_space. cbn.
  destruct (spaces_dict st !! entry_context_hash e) as [sp|] eqn:Esp; cbn.
  - match goal with |- context [match ?c sp with _ => _ end] => destruct (c sp) end;
      cbn; (split; [by apply alter_as_insert|]);
      intros ctx; rewrite lookup_insert; case_decide; subst; rewrite ?Esp;
      split; eauto.
  - split; [by apply alter_as_insert | done].
Qed.

(** C5. An optimize call with a request id, a price and a floor price,
    for a known context and with [price < floor_price], returns the
    optimized price 0 with the status [error] and leaves the server state,
    the ledger included, as it was, whatever the ledger holds. *)
Theorem optimize_below_floor
    (st : Server) (data : OptimizeData) (price floor_price : Q) :
  opt_id data <> EmptyString ->
  opt_price data = Some price ->
  opt_floor_price data = Some floor_price ->
  is_Some (spaces_dict st !! opt_ctx_hash data) ->
  (price < floor_price)%Q ->
  optimize (Some data) st = Returned (Optimized 0.0 error) st /\
  request_store (state_of (optimize (Some data) st)) = request_store st.
Proof.
  intros Hid Hp Hf Hctx Hlt.
  assert (optimize (Some data) st = Returned (Optimized 0.0 error) st) as Hreply.
  { unfold optimize. rewrite Hp, Hf.
    apply String.eqb_neq in Hid. rewrite Hid. cbn [app].
    unfold bind, get, ret.
    rewrite (bool_decide_eq_true_2 _ Hctx). cbn [negb].
    destruct (Qlt_le_dec price floor_price) as [_|Hle]; [done|lra]. }
  by rewrite Hreply.
Qed.

Lemma optimize_below_floor_witness :
  optimize (Some (example_optimize 8 9)) example_server
    = Returned (Optimized 0.0 error) example_server /\
  request_store (state_of (optimize (Some (example_optimize 8 9)) example_server))
    = request_store example_server.
Proof.
  apply (optimize_below_floor example_server (example_optimize 8 9) 8 9).
  - discriminate.
  - reflexivity.
  - reflexivity.
  - vm_compute. eauto.
  - reflexivity.
Defined.

(** C6. A feedback call with a request id, a price and an impression,
    whose request id has no ledger entry, returns [ack = false] without
    raising and leaves the whole server state (ledger, buckets, winning
    curves and sample lists) as it was. *)
Theorem feedback_unknown_request
    (st : Server) (data : FeedbackData) (price : Q) (impression : bool) :
  fb_id data <> EmptyString ->
  fb_price data = Some price ->
  fb_impression data = Some impression ->
  request_store st !! fb_id data = None ->
  feedback (Some data) st = Returned (Ack false) st.
Proof.
  intros Hid Hp Hi Hnone. unfold feedback. rewrite Hp, Hi.
  apply String.eqb_neq in Hid. rewrite Hid. cbn [app].
  unfold bind, get, ret. by rewrite Hnone.
Qed.

Lemma feedback_unknown_request_witness :
  feedback (Some (example_feedback "unknown")) example_server
    = Returned (Ack false) example_server.
Proof.
  apply (feedback_unknown_request example_server (example_feedback "unknown") 1.5 true).
  - discriminate.
  - reflexivity.
  - reflexivity.
  - reflexivity.
Defined.

Lemma py_max_bounds (a b : Q) : (b <= py_max a b)%Q /\ (a <= py_max a b)%Q.
Proof. unfold py_max. destruct (Qlt_le_dec a b); split; lra. Qed.

Lemma status_of_not_error (e : Entry) : status_of e <> error.
Proof.
  unfold status_of. destruct (attempts e <=? EXPLORATION_ROUNDS); [done|].
  destruct (impressions e >? 0); done.
Qed.

(** C10. An optimize call with a request id, for a known context and
    with [0 <= floor_price <= price], returns a status other than [error]
    and an optimized price between the floor price and the price. *)
Theorem optimize_price_within_bounds
    (st : Server) (data : OptimizeData) (price floor_price : Q) :
  opt_id data <> EmptyString ->
  opt_price data = Some price ->
  opt_floor_price data = Some floor_price ->
  is_Some (spaces_dict st !! opt_ctx_hash data) ->
  (0 <= floor_price)%Q ->
  (floor_price <= price)%Q ->
  exists optimized_price status st',
    optimize (Some data) st = Returned (Optimized optimized_price status) st' /\
    status <> error /\
    (floor_price <= optimized_price <= price)%Q.
Proof.
  intros Hid Hp Hf Hctx H0 Hle.
  eexists _, _, _. split; [by apply optimize_accepts|].
  split; [apply status_of_not_error|].
  unfold py_max. destruct (Qlt_le_dec (price * 0.9) floor_price); split; lra.
Qed.

Lemma optimize_price_within_bounds_witness :
  exists optimized_price status st',
    optimize (Some (example_optimize 10 9)) example_server
      = Returned (Optimized optimized_price status) st' /\
    status <> error /\
    (9 <= optimized_price <= 10)%Q.
Proof.
  apply (optimize_price_within_bounds example_server (example_optimize 10 9) 10 9).
  - discriminate.
  - reflexivity.
  - reflexivity.
  - vm_compute. eauto.
  - discriminate.
  - discriminate.
Defined.

Lemma serve_cons (r : Request) (requests : list Request) (st : Server) :
  serve (r :: requests) st
  = ((if handle r st is Returned a _ then Some a else None)
       :: (serve requests (state_of (handle r st))).1,
     (serve requests (state_of (handle r st))).2).
Proof. simpl. by destruct (serve requests (state_of (handle r st))). Qed.

(** The status rule as the design document words it. *)
Lemma status_of_rule (e : Entry) :
  0 <= impressions e ->
  status_of e = if attempts e <=? 3 then explored
                else if impressions e =? 0 then explored else optimized.
Proof.
  intros Hi. unfold status_of, EXPLORATION_ROUNDS.
  destruct (attempts e <=? 3); [done|].
  destruct (Z.gtb_spec (impressions e) 0), (Z.eqb_spec (impressions e) 0); done || lia.
Qed.

(** C4. For an optimize call with a request id, for a known context and
    with [price >= floor_price], on a ledger whose impression counts are
    not negative: the call returns, the entry's [attempts] is one more
    than before (one for a new id), and the status is [explored] when
    [attempts <= 3] and otherwise [explored] when [impressions] is 0 and
    [optimized] when not. For a request id that is new, the first four
    calls return [explored]; when a feedback call for that id comes
    between the third and the fourth, the fourth returns [optimized]. *)
Theorem optimize_status_by_attempts
    (st : Server) (data : OptimizeData) (price floor_price : Q)
    (fb : FeedbackData) (fb_price' : Q) (fb_impression' : bool) :
  opt_id data <> EmptyString ->
  opt_price data = Some price ->
  opt_floor_price data = Some floor_price ->
  is_Some (spaces_dict st !! opt_ctx_hash data) ->
  (floor_price <= price)%Q ->
  ledger_wf st ->
  let before := default (new_entry data price floor_price)
                  (request_store st !! opt_id data) in
  let call := Optimize (Some data) in
  let reply status := Some (Optimized (py_max (price * 0.9) floor_price) status) in
  (exists status st' e,
     optimize (Some data) st
       = Returned (Optimized (py_max (price * 0.9) floor_price) status) st' /\
     request_store st' !! opt_id data = Some e /\
     attempts e = attempts before + 1 /\
     impressions e = impressions before /\
     status = if attempts e <=? 3 then explored
              else if impressions e =? 0 then explored else optimized) /\
  (request_store st !! opt_id data = None ->
   fb_id fb = opt_id data ->
   fb_price fb = Some fb_price' ->
   fb_impression fb = Some fb_impression' ->
   (serve [call; call; call; call] st).1
     = [reply explored; reply explored; reply explored; reply explored] /\
   exists ack,
     (serve [call; call; call; Feedback (Some fb); call] st).1
       = [reply explored; reply explored; reply explored; ack; reply optimized]).
Proof.
  intros Hid Hp Hf Hctx Hle Hwf before call reply. split.
  - eexists _, _, _. split; [by apply optimize_accepts|].
    cbn. rewrite lookup_insert_eq. split; [done|]. split; [done|]. split; [done|].
    apply status_of_rule. cbn. subst before.
    destruct (request_store st !! opt_id data) as [e0|] eqn:E; cbn; [by eapply Hwf|done].
  - intros Hnew Hfid Hfp Hfi.
    assert (Hstep : forall st0,
      is_Some (spaces_dict st0 !! opt_ctx_hash data) ->
      handle call st0
      = Returned (Optimized (py_max (price * 0.9) floor_price)
                    (status_of (set_attempts (fun n => n + 1)
                       (default (new_entry data price floor_price)
                          (request_store st0 !! opt_id data)))))
          (set_request_store (fun rs =>
             <[opt_id data := set_attempts (fun n => n + 1)
                 (default (new_entry data price floor_price)
                    (request_store st0 !! opt_id data))]> rs) st0)).
    { intros st0 H0. by apply optimize_accepts. }
    split.
    + rewrite !serve_cons. 
      repeat (rewrite Hstep by done; cbn [state_of set_request_store request_store spaces_dict];
              rewrite ?lookup_insert_eq).
      rewrite Hnew. reflexivity.
    + rewrite !serve_cons. 
      do 3 (rewrite Hstep by done; cbn [state_of set_request_store request_store spaces_dict];
              rewrite ?lookup_insert_eq).
      rewrite Hnew. cbn [default].
      match goal with |- context [handle (Feedback (Some fb)) ?s] =>
        set (st3 := s) end.
      destruct (feedback_known st3 fb fb_price' fb_impression'
                  (set_attempts (fun n => n + 1) (set_attempts (fun n => n + 1)
                     (set_attempts (fun n => n + 1) (new_entry data price floor_price)))))
        as [Hrs Hsp]; try done.
      { congruence. }
      { rewrite Hfid. subst st3. cbn. by rewrite lookup_insert_eq. }
      cbn [handle].
      rewrite Hstep by (apply Hsp; done).
      rewrite Hrs, Hfid, lookup_insert_eq.
      eexists. reflexivity.
Qed.

Lemma example_server_wf : ledger_wf example_server.
Proof. intros id e Hl. discriminate Hl. Qed.

Lemma optimize_status_by_attempts_witness :
  let call := Optimize (Some (example_optimize 10 9)) in
  let reply status := Some (Optimized (py_max (10 * 0.9) 9) status) in
  (serve [call; call; call; call] example_server).1
    = [reply explored; reply explored; reply explored; reply explored] /\
  exists ack,
    (serve [call; call; call; Feedback (Some (example_feedback "r1")); call]
       example_server).1
      = [reply explored; reply explored; reply explored; ack; reply optimized].
Proof.
  refine (proj2 (optimize_status_by_attempts example_server (example_optimize 10 9) 10 9
                   (example_feedback "r1") 1.5 true _ _ _ _ _ example_server_wf)
            _ _ _ _);
    try reflexivity; try discriminate.
  vm_compute. eauto.
Defined.

(** The handlers keep the impression counts of the ledger non-negative,
    so every state the server reaches from an empty ledger has them so. *)
Lemma handle_ledger_wf (r : Request) (st : Server) :
  ledger_wf st -> ledger_wf (state_of (handle r st)).
Proof.
  intros Hwf. destruct r as [[data|]|[data|]]; cbn [handle]; try done.
  - unfold optimize.
    destruct (_ ++ _) as [|? ?]; [|done].
    destruct (opt_price data) as [price|]; [|done].
    destruct (opt_floor_price data) as [floor_price|]; [|done].
    unfold bind, get, modify, ret, or_raise, raise.
    destruct (negb _); [done|]. destruct (Qlt_le_dec _ _); [done|].
    destruct (request_store st !! opt_id data) as [e0|] eqn:E.
    + rewrite bool_decide_eq_true_2 by eauto. cbn.
      rewrite lookup_alter_eq, E. cbn.
      intros id e. cbn. rewrite lookup_alter. case_decide; [subst id|by apply Hwf].
      rewrite E. intros [= <-]. cbn. by eapply Hwf.
    + rewrite bool_decide_eq_false_2 by (intros [? ?]; congruence). cbn.
      rewrite lookup_alter_eq, lookup_insert_eq. cbn.
      intros id e. cbn. rewrite lookup_alter. case_decide; [subst id|].
      * rewrite lookup_insert_eq. by intros [= <-].
      * rewrite lookup_insert_ne by done. by apply Hwf.
  - unfold feedback.
    destruct (_ ++ _) as [|? ?] eqn:Emiss; [|done].
    destruct (fb_price data) as [price|] eqn:Ep; [|done].
    destruct (fb_impression data) as [impression|] eqn:Ei; [|done].
    destruct (request_store st !! fb_id data) as [e0|] eqn:E.
    2:{ unfold bind, get, ret. by rewrite E. }
    assert (Hid : fb_id data <> EmptyString).
    { intros Heq. rewrite Heq in Emiss. discriminate Emiss. }
    destruct (feedback_known st data price impression e0 Hid Ep Ei E) as [Hrs _].
    unfold feedback in Hrs. rewrite Ep, Ei, Emiss in Hrs.
    intros id e. rewrite Hrs, lookup_insert. case_decide; [|by apply Hwf].
    intros [= <-]. cbn. specialize (Hwf _ _ E). lia.
Qed.

Lemma serve_ledger_wf (requests : list Request) (st : Server) :
  ledger_wf st -> ledger_wf (serve requests st).2.
Proof.
  revert st. induction requests as [|r rs IH]; intros st Hwf; [done|].
  rewrite serve_cons. cbn. apply IH. by apply handle_ledger_wf.
Qed.

(** Whatever requests a server that starts with an empty ledger has
    handled, no entry of its ledger has a negative impression count. *)
Theorem impressions_never_negative
    (spaces : gmap string Space.t) (requests : list Request) :
  ledger_wf (serve requests {| spaces_dict := spaces; request_store := ∅ |}).2.
Proof. apply serve_ledger_wf. intros id e Hl. discriminate Hl. Qed.

(** ** Grid construction *)

Lemma insert_sorted_Forall (P : Q -> Prop) (x : Q) (l : list Q) :
  P x -> Forall P l -> Forall P (insert_sorted x l).
Proof.
  intros Hx Hl. induction Hl as [|y l Hy Hl IH]; simpl.
  - by constructor.
  - destruct (Qle_bool x y); repeat constructor; done.
Qed.

Lemma insert_sorted_sorted (x : Q) (l : list Q) :
  StronglySorted Qle l -> StronglySorted Qle (insert_sorted x l).
Proof.
  induction 1 as [|y l Hs IH Hy]; simpl.
  - repeat constructor.
  - destruct (Qle_bool x y) eqn:E.
    + apply Qle_bool_iff in E. constructor; [by constructor|].
      constructor; [done|]. eapply Forall_impl; [exact Hy|].
      intros z Hz. simpl in Hz. lra.
    + assert (y <= x)%Q.
      { destruct (Qlt_le_dec y x) as [?|Hle]; [lra|].
        apply Qle_bool_iff in Hle. congruence. }
      constructor; [done|]. by apply insert_sorted_Forall.
Qed.

Lemma sort_sorted (l : list Q) : StronglySorted Qle (sort l).
Proof.
  induction l as [|x l IH]; simpl; [constructor|]. by apply insert_sorted_sorted.
Qed.

Lemma length_insert_sorted (x : Q) (l : list Q) :
  length (insert_sorted x l) = S (length l).
Proof.
  induction l as [|y l IH]; simpl; [done|].
  destruct (Qle_bool x y); simpl; by rewrite ?IH.
Qed.

Lemma length_sort (l : list Q) : length (sort l) = length l.
Proof.
  induction l as [|x l IH]; simpl; [done|]. by rewrite length_insert_sorted, IH.
Qed.

Lemma sorted_last_of (x : Q) (l : list Q) :
  StronglySorted Qle (x :: l) -> (x <= last_of x l)%Q.
Proof.
  revert x. induction l as [|y l IH]; intros x Hs; simpl; [lra|].
  apply StronglySorted_inv in Hs as [Hs Hx].
  apply Forall_cons in Hx as [Hxy _]. specialize (IH y Hs). simpl in Hxy. lra.
Qed.

Lemma length_zip_bounds {A} (f : Q -> Q -> A) (l : list Q) :
  length (zip_with f (removelast l) (tail l)) = pred (length l).
Proof.
  destruct l as [|x l]; [done|]. simpl tail. simpl length.
  revert x. induction l as [|y l IH]; intros x; [done|].
  change (removelast (x :: y :: l)) with (x :: removelast (y :: l)).
  simpl. by rewrite IH.
Qed.

Lemma Returned_inv {S A} (a a' : A) (s s' : S) :
  Returned a s = Returned a' s' -> a = a' /\ s = s'.
Proof. by intros [= -> ->]. Qed.

Lemma Forall_zip_with_any {A B C} (P : C -> Prop) (f : A -> B -> C)
    (l : list A) (k : list B) :
  (forall x y, P (f x y)) -> Forall P (zip_with f l k).
Proof.
  intros HP. revert k. induction l as [|x l IH]; intros [|y k]; simpl; by constructor.
Qed.

Section GridProperties.
Context `{Random}.

Lemma draw_returns (n : nat) (lambda_param : Q) (g : rng) :
  exists l g', draw n lambda_param g = Returned l g' /\ length l = n.
Proof.
  revert g. induction n as [|n IH]; intros g; simpl.
  - by exists [], g.
  - unfold bind. destruct (expovariate lambda_param g) as [v g1].
    destruct (IH g1) as (l & g' & -> & Hl). exists (v :: l), g'.
    split; [done|]. simpl. by rewrite Hl.
Qed.

End GridProperties.

(** ** Binary64 facts *)











(** ** The order of the floats *)







(** ** Buckets in ascending order *)




(** ** The grid in binary64 *)











Section GridB64.
Context `{B64.Random}.






End GridB64.



(** ** Space.learn *)

Lemma for_each_invariant_in {S A} (P : S -> Prop) (xs : list A) (body : A -> M S unit)
    (s : S) :
  (forall x s0, x ∈ xs -> P s0 -> P (state_of (body x s0))) ->
  P s -> P (state_of (for_each xs body s)).
Proof.
  revert s. induction xs as [|x xs IH]; intros s Hbody Hs; simpl; [done|].
  unfold bind. pose proof (Hbody x s (list_elem_of_here _ _) Hs) as Hx.
  destruct (body x s) as [[] s1|e s1]; simpl in *; [|done].
  apply IH; [|done]. intros y s0 Hy. apply Hbody. by right.
Qed.

Lemma for_each_invariant {S A} (P : S -> Prop) (xs : list A) (body : A -> M S unit) (s : S) :
  (forall x s0, P s0 -> P (state_of (body x s0))) ->
  P s -> P (state_of (for_each xs body s)).
Proof. intros Hbody. apply for_each_invariant_in. intros x s0 _. apply Hbody. Qed.

(** A loop that returns has returned from each of its iterations. *)
Lemma for_each_returned_split {S A} (xs zs : list A) (y : A) (body : A -> M S unit)
    (s s' : S) :
  for_each (xs ++ y :: zs) body s = Returned tt s' ->
  exists s1 s2,
    for_each xs body s = Returned tt s1 /\ body y s1 = Returned tt s2 /\
    for_each zs body s2 = Returned tt s'.
Proof.
  revert s. induction xs as [|x xs IH]; intros s; simpl; unfold bind.
  - destruct (body y s) as [[] s2|e s2] eqn:Ey; [|done]. intros Hz. by exists s, s2.
  - destruct (body x s) as [[] s1|e s1]; [|done]. intros Hrest.
    destruct (IH s1 Hrest) as (s2 & s3 & ? & ? & ?). by exists s2, s3.
Qed.

Lemma for_each_app {S A} (xs ys : list A) (body : A -> M S unit) (s : S) :
  for_each (xs ++ ys) body s = (for_each xs body ;; for_each ys body)%py s.
Proof.
  revert s. induction xs as [|x xs IH]; intros s; simpl; [done|].
  unfold bind. destruct (body x s) as [[] s1|e s1]; [|done]. apply IH.
Qed.

(** The loop over [enumerate(xs)] uses the index only. *)
Lemma for_each_enumerate {S A} (xs : list A) (f : nat -> M S unit) (s : S) :
  for_each (enumerate xs) (fun '(i, _) => f i) s = for_each (seq 0 (length xs)) f s.
Proof.
  unfold enumerate.
  enough (forall k s, for_each (imap (fun i x => (k + i, x)%nat) xs) (fun '(i, _) => f i) s
                      = for_each (seq k (length xs)) f s) as Hk by apply (Hk 0%nat).
  clear s. induction xs as [|x xs IH]; intros k s; simpl; [done|].
  unfold bind. rewrite Nat.add_0_r. destruct (f k s) as [[] s1|e s1]; [|done].
  rewrite <- IH. f_equal. apply imap_ext. intros i y _. simpl. f_equal. lia.
Qed.

Lemma same_elsewhere_refl (j : nat) (s : Space.t) : same_elsewhere j s s.
Proof. by split. Qed.

Lemma same_elsewhere_trans (j : nat) (s1 s2 s3 : Space.t) :
  same_elsewhere j s1 s2 -> same_elsewhere j s2 s3 -> same_elsewhere j s1 s3.
Proof.
  intros [Hl1 H1] [Hl2 H2]. split; [congruence|]. intros i Hi.
  destruct (H1 i Hi), (H2 i Hi). split; congruence.
Qed.

Section LearnProperties.
Context `{Learner}.

Lemma curve_store_frame (i j : nat) (pred : Q) (sp : Space.t) :
  let sp' := state_of (Space.curve_store i j pred sp) in
  same_elsewhere i sp sp' /\ Space.learning_data sp' = Space.learning_data sp.
Proof.
  unfold Space.curve_store, Space.level_at, bind, or_raise, modify, raise, ret.
  destruct (Space.levels sp !! i) as [lvl|] eqn:E; simpl;
    [|split; [apply same_elsewhere_refl|done]].
  destruct (j <? length (Level.winning_curve lvl))%nat; simpl;
    [|split; [apply same_elsewhere_refl|done]].
  split; [|done]. split; simpl; [by rewrite length_insert|].
  intros k Hk. by rewrite list_lookup_insert_ne.
Qed.

(** Lines 95 to 113 write the curve of level [i] and nothing else. *)
Lemma fit_frame (i : nat) (sp : Space.t) :
  let sp' := state_of (Space.fit i sp) in
  same_elsewhere i sp sp' /\ Space.learning_data sp' = Space.learning_data sp.
Proof.
  unfold Space.fit, Space.level_at, Space.data_at, bind, or_raise, raise, ret.
  destruct (Space.levels sp !! i) as [lvl|] eqn:E; simpl;
    [|split; [apply same_elsewhere_refl|done]].
  destruct (Space.learning_data sp !! i) as [data|] eqn:Ed; simpl;
    [|split; [apply same_elsewhere_refl|done]].
  destruct (length data <? 10)%nat; simpl; [split; [apply same_elsewhere_refl|done]|].
  destruct (train _ _) as [m|]; simpl; [|split; [apply same_elsewhere_refl|done]].
  match goal with
  | |- context [for_each ?xs ?body sp] =>
      pose proof (for_each_invariant
        (fun s => same_elsewhere i sp s /\ Space.learning_data s = Space.learning_data sp)
        xs body sp) as Hloop;
      destruct (for_each xs body sp) as [[] s1|e s1]
  end; simpl in *; apply Hloop; try (split; [apply same_elsewhere_refl|done]).
  all: intros [j bucket] s0 [Hs0 Hd0];
    destruct (predict _ _ _) as [pred|]; simpl; [|done];
    destruct (curve_store_frame i j pred s0) as [Hs1 Hd1];
    (split; [by eapply same_elsewhere_trans | congruence]).
Qed.

(** A level with fewer than ten samples is left alone. *)
Lemma fit_small (i : nat) (sp : Space.t) (data : list Sample) :
  Space.learning_data sp !! i = Some data ->
  (length data < 10)%nat ->
  Space.fit i sp = Returned false sp \/ Space.fit i sp = Raised IndexError sp.
Proof.
  intros Hd Hlen.
  unfold Space.fit, Space.level_at, Space.data_at, bind, or_raise, raise, ret.
  destruct (Space.levels sp !! i) as [lvl|]; simpl; [|by right].
  rewrite Hd. simpl. apply Nat.ltb_lt in Hlen. rewrite Hlen. by left.
Qed.

Lemma learn_level_small (i : nat) (sp : Space.t) (data : list Sample) :
  Space.learning_data sp !! i = Some data ->
  (length data < 10)%nat ->
  state_of (Space.learn_level i sp) = sp.
Proof.
  intros Hd Hlen. unfold Space.learn_level, bind.
  by destruct (fit_small i sp data Hd Hlen) as [-> | ->].
Qed.

(** An iteration of [learn] touches its own level only. *)
Lemma learn_level_frame (j : nat) (sp : Space.t) :
  same_elsewhere j sp (state_of (Space.learn_level j sp)).
Proof.
  unfold Space.learn_level, bind.
  destruct (fit_frame j sp) as [Hs _].
  destruct (Space.fit j sp) as [[] s1|e s1]; simpl in *; try done.
  eapply same_elsewhere_trans; [exact Hs|].
  split; simpl; [done|]. intros i Hi. by rewrite lookup_insert_ne.
Qed.

(** C8. A level whose sample list holds fewer than ten samples comes out
    of [Space.learn] as it went in, winning curve and buckets included,
    and so does its sample list, whether [learn] returns or raises on
    another level. *)
Theorem learn_skips_small_levels (sp : Space.t) (i : nat) (data : list Sample) :
  Space.learning_data sp !! i = Some data ->
  (length data < 10)%nat ->
  let sp' := state_of (Space.learn sp) in
  Space.levels sp' !! i = Space.levels sp !! i /\
  Space.learning_data sp' !! i = Some data.
Proof.
  intros Hd Hlen. unfold Space.learn, bind, gets. rewrite for_each_enumerate.
  apply (for_each_invariant
           (fun s => Space.levels s !! i = Space.levels sp !! i /\
                     Space.learning_data s !! i = Some data)); [|done].
  intros j s0 [Hl0 Hd0]. destruct (decide (j = i)) as [->|Hne].
  - by rewrite (learn_level_small i s0 data Hd0 Hlen).
  - destruct (learn_level_frame j s0) as [_ Hf].
    destruct (Hf i) as [Hl1 Hd1]; [done|]. split; congruence.
Qed.

(** When the iteration for a level with ten samples or more returns,
    the sample list of the level is empty. *)
Lemma learn_level_clears (i : nat) (sp sp' : Space.t) (data : list Sample) :
  Space.learning_data sp !! i = Some data ->
  (10 <= length data)%nat ->
  Space.learn_level i sp = Returned tt sp' ->
  Space.learning_data sp' !! i = Some [].
Proof.
  intros Hd Hlen. unfold Space.learn_level, bind.
  destruct (Space.fit i sp) as [fitted s1|e s1] eqn:Efit; [|done].
  destruct fitted.
  - unfold Space.clear, modify. intros Heq. apply Returned_inv in Heq as [_ <-].
    simpl. by rewrite lookup_insert_eq.
  - exfalso. revert Efit.
    unfold Space.fit, Space.level_at, Space.data_at, bind, or_raise, raise, ret.
    destruct (Space.levels sp !! i) as [lvl|]; simpl; [|done].
    rewrite Hd. simpl.
    destruct (Nat.ltb_spec (length data) 10) as [?|_]; [lia|].
    destruct (train _ _) as [m|]; simpl; [|done].
    by destruct (for_each _ _ sp) as [[] s2|e s2].
Qed.


(** When [learn] returns, it has emptied the sample list of every level
    that held ten samples or more. *)
Lemma learn_clears (sp sp' : Space.t) (i : nat) (data : list Sample) :
  Space.learn sp = Returned tt sp' ->
  (i < length (Space.levels sp))%nat ->
  Space.learning_data sp !! i = Some data ->
  (10 <= length data)%nat ->
  Space.learning_data sp' !! i = Some [].
Proof.
  intros Hlearn Hi Hd Hlen. unfold Space.learn, bind, gets in Hlearn.
  rewrite for_each_enumerate in Hlearn.
  set (n := length (Space.levels sp)) in *.
  replace (seq 0 n) with (seq 0 i ++ i :: seq (S i) (n - S i)) in Hlearn.
  2:{ change (i :: seq (S i) (n - S i)) with (seq i (S (n - S i))).
      rewrite <- seq_app. f_equal. lia. }
  apply for_each_returned_split in Hlearn as (s1 & s2 & Hpre & Hi' & Hpost).
  assert (Space.learning_data s1 !! i = Some data) as Hd1.
  { replace s1 with (state_of (for_each (seq 0 i) Space.learn_level sp))
      by (by rewrite Hpre).
    apply (for_each_invariant_in (fun s => Space.learning_data s !! i = Some data));
      [|done].
    intros j s0 Hj Hs0. apply elem_of_seq in Hj.
    destruct (learn_level_frame j s0) as [_ Hf].
    destruct (Hf i) as [_ Hd0]; [lia|]. congruence. }
  pose proof (learn_level_clears i s1 s2 data Hd1 Hlen Hi') as Hd2.
  replace sp' with (state_of (for_each (seq (S i) (n - S i)) Space.learn_level s2))
    by (by rewrite Hpost).
  apply (for_each_invariant_in (fun s => Space.learning_data s !! i = Some []));
    [|done].
  intros j s0 Hj Hs0. apply elem_of_seq in Hj.
  destruct (learn_level_frame j s0) as [_ Hf].
  destruct (Hf i) as [_ Hd0]; [lia|]. congruence.
Qed.

(** A Space that is not in the dictionary is not brought in, the ledger
    is not touched, and the Space under [ctx] comes out as its own
    method leaves it. *)
Lemma try_at_space (ctx : string) (c : M Space.t unit) (st : Server) :
  exists st',
    try_except (at_space ctx c) st = Returned tt st' /\
    request_store st' = request_store st /\
    forall k, spaces_dict st' !! k
              = if decide (k = ctx)
                then (fun sp => state_of (c sp)) <$> spaces_dict st !! k
                else spaces_dict st !! k.
Proof.
  unfold try_except, at_space. eexists. split; [done|].
  destruct (spaces_dict st !! ctx) as [sp|] eqn:E; simpl.
  - destruct (c sp) as [[] sp1|e sp1] eqn:Ec; simpl; (split; [done|]); intros k;
      (destruct (decide (k = ctx)) as [->|Hne];
         [rewrite lookup_insert_eq, E; simpl; by rewrite Ec
         | by rewrite lookup_insert_ne]).
  - split; [done|]. intros k. destruct (decide (k = ctx)) as [->|]; [by rewrite E|done].
Qed.

Lemma learning_cycle_keys (ks : list string) (st : Server) :
  NoDup ks ->
  exists st',
    for_each ks (fun ctx => try_except (at_space ctx Space.learn)) st = Returned tt st' /\
    request_store st' = request_store st /\
    forall k, spaces_dict st' !! k
              = if decide (k ∈ ks)
                then (fun sp => state_of (Space.learn sp)) <$> spaces_dict st !! k
                else spaces_dict st !! k.
Proof.
  intros Hnd. revert st. induction Hnd as [|ctx ks Hnotin Hnd IH]; intros st; simpl.
  - by exists st.
  - unfold bind.
    destruct (try_at_space ctx Space.learn st) as (st1 & -> & Hr1 & Hs1).
    destruct (IH st1) as (st2 & -> & Hr2 & Hs2).
    exists st2. split; [done|]. split; [congruence|]. intros k.
    rewrite Hs2, Hs1.
    destruct (decide (k = ctx)) as [->|Hne].
    + rewrite decide_False by done. rewrite decide_True by left. done.
    + destruct (decide (k ∈ ks)) as [Hin|Hout].
      * rewrite decide_True by (by right). done.
      * rewrite decide_False; [done|]. intros Hin. apply elem_of_cons in Hin. tauto.
Qed.

(** One pass of the background loop never raises and recalibrates each
    Space on its own: a Space comes out as [learn] leaves it, wherever
    [learn] raised. *)
Lemma learning_cycle_spec (st : Server) :
  exists st',
    learning_cycle st = Returned tt st' /\
    request_store st' = request_store st /\
    spaces_dict st' = (fun sp => state_of (Space.learn sp)) <$> spaces_dict st.
Proof.
  unfold learning_cycle, bind, gets.
  destruct (learning_cycle_keys (map fst (map_to_list (spaces_dict st))) st)
    as (st' & Hrun & Hr & Hs).
  { apply NoDup_fst_map_to_list. }
  exists st'. split; [done|]. split; [done|]. apply map_eq. intros k.
  rewrite Hs, lookup_fmap. destruct (decide _) as [|Hout]; [done|].
  destruct (spaces_dict st !! k) as [sp|] eqn:E; [|done].
  exfalso. apply Hout. apply list_elem_of_fmap. exists (k, sp).
  split; [done|]. by apply elem_of_map_to_list.
Qed.

End LearnProperties.

Section Recalibration.
Context `{Learner}.

(** The iterations of [learn] for the levels [xs] leave a level that
    is not among them, and its sample list, as they were. *)
Lemma learn_levels_frame (xs : list nat) (sp : Space.t) (k : nat) :
  k ∉ xs ->
  let sp' := state_of (for_each xs Space.learn_level sp) in
  Space.levels sp' !! k = Space.levels sp !! k /\
  Space.learning_data sp' !! k = Space.learning_data sp !! k.
Proof.
  intros Hk.
  apply (for_each_invariant_in
           (fun s => Space.levels s !! k = Space.levels sp !! k /\
                     Space.learning_data s !! k = Space.learning_data sp !! k)); [|done].
  intros j s0 Hj [Hl0 Hd0].
  destruct (learn_level_frame j s0) as [_ Hf].
  destruct (Hf k) as [Hl1 Hd1]; [by intros ->|]. split; congruence.
Qed.

(** An iteration that raises has not come to line 115: the sample
    lists are as they were. *)
Lemma learn_level_raised (i : nat) (sp : Space.t) :
  returned (Space.learn_level i sp) = false ->
  Space.learning_data (state_of (Space.learn_level i sp)) = Space.learning_data sp.
Proof.
  unfold Space.learn_level, bind. destruct (fit_frame i sp) as [_ Hd].
  destruct (Space.fit i sp) as [[] s1|e s1]; simpl in *; done.
Qed.

(** C1, as the code has it. One pass of the background loop never
    raises, and every Space comes out of it as its own [learn] leaves
    it, whether or not [learn] raised for another Space. Within a
    Space, for a level that held ten samples or more: when the pass
    comes to the level and its iteration returns, the sample list of
    the level is empty after the pass, whether or not a later level
    raises; when its iteration raises, [learn] raises, the level keeps
    its samples, and the levels after it keep their samples and their
    curves. In particular a [learn] that returns has emptied the list of
    every such level. *)
Theorem learning_cycle_recalibrates_each_space
    (st : Server) (ctx : string) (sp : Space.t) :
  spaces_dict st !! ctx = Some sp ->
  exists st',
    learning_cycle st = Returned tt st' /\
    spaces_dict st' !! ctx = Some (state_of (Space.learn sp)) /\
    (forall sp' i data,
       Space.learn sp = Returned tt sp' ->
       (i < length (Space.levels sp))%nat ->
       Space.learning_data sp !! i = Some data ->
       (10 <= length data)%nat ->
       spaces_dict st' !! ctx = Some sp' /\
       Space.learning_data sp' !! i = Some []) /\
    (forall i data sp_i,
       (i < length (Space.levels sp))%nat ->
       Space.learning_data sp !! i = Some data ->
       (10 <= length data)%nat ->
       reaches sp i sp_i ->
       let sp' := state_of (Space.learn sp) in
       if returned (Space.learn_level i sp_i)
       then Space.learning_data sp' !! i = Some []
       else returned (Space.learn sp) = false /\
            Space.learning_data sp' !! i = Some data /\
            forall j, (i < j)%nat ->
              Space.levels sp' !! j = Space.levels sp !! j /\
              Space.learning_data sp' !! j = Space.learning_data sp !! j).
Proof.
  intros Hsp. destruct (learning_cycle_spec st) as (st' & Hrun & _ & Hs).
  exists st'. split; [done|].
  assert (spaces_dict st' !! ctx = Some (state_of (Space.learn sp))) as Hctx.
  { by rewrite Hs, lookup_fmap, Hsp. }
  split; [done|]. split.
  { intros sp' i data Hret Hi Hd Hlen. split.
    - by rewrite Hctx, Hret.
    - by eapply learn_clears. }
  intros i data sp_i Hi Hd Hlen Hreach. unfold reaches in Hreach.
  assert (Space.learn sp
          = (Space.learn_level i ;;
             for_each (seq (S i) (length (Space.levels sp) - S i)) Space.learn_level)%py sp_i)
    as Hlearn.
  { unfold Space.learn. unfold bind at 1. unfold gets. rewrite for_each_enumerate.
    replace (seq 0 (length (Space.levels sp)))
      with (seq 0 i ++ i :: seq (S i) (length (Space.levels sp) - S i)).
    2:{ change (i :: seq (S i) (length (Space.levels sp) - S i))
          with (seq i (S (length (Space.levels sp) - S i))).
        rewrite <- seq_app. f_equal. lia. }
    rewrite for_each_app. unfold bind at 1. by rewrite Hreach. }
  assert (forall k, (i <= k)%nat ->
            Space.levels sp_i !! k = Space.levels sp !! k /\
            Space.learning_data sp_i !! k = Space.learning_data sp !! k) as Hpre.
  { intros k Hk. replace sp_i with (state_of (for_each (seq 0 i) Space.learn_level sp))
      by (by rewrite Hreach).
    apply learn_levels_frame. rewrite elem_of_seq. lia. }
  destruct (Hpre i) as [_ Hdi]; [lia|]. rewrite Hd in Hdi.
  cbv zeta. rewrite Hlearn. unfold bind.
  destruct (Space.learn_level i sp_i) as [[] s2|e s2] eqn:Ei; simpl.
  - pose proof (learn_level_clears i sp_i s2 data Hdi Hlen Ei) as Hd2.
    destruct (learn_levels_frame (seq (S i) (length (Space.levels sp) - S i)) s2 i)
      as [_ Hd3]; [rewrite elem_of_seq; lia|].
    by rewrite Hd3.
  - split; [done|].
    pose proof (learn_level_raised i sp_i) as Hraised. rewrite Ei in Hraised.
    simpl in Hraised. specialize (Hraised eq_refl). split; [by rewrite Hraised|].
    intros j Hj. destruct (Hpre j) as [Hlj Hdj]; [lia|].
    pose proof (learn_level_frame i sp_i) as [_ Hf]. rewrite Ei in Hf. simpl in Hf.
    destruct (Hf j) as [Hl2 Hd2]; [lia|]. split; congruence.
Qed.

End Recalibration.

Lemma learning_cycle_recalibrates_each_space_witness :
  exists st',
    @learning_cycle faulty_learner two_space_server = Returned tt st' /\
    spaces_dict st' !! "b" = Some (state_of (@Space.learn faulty_learner trainable_space)) /\
    (forall sp' i data,
       @Space.learn faulty_learner trainable_space = Returned tt sp' ->
       (i < length (Space.levels trainable_space))%nat ->
       Space.learning_data trainable_space !! i = Some data ->
       (10 <= length data)%nat ->
       spaces_dict st' !! "b" = Some sp' /\
       Space.learning_data sp' !! i = Some []) /\
    (forall i data sp_i,
       (i < length (Space.levels trainable_space))%nat ->
       Space.learning_data trainable_space !! i = Some data ->
       (10 <= length data)%nat ->
       @reaches faulty_learner trainable_space i sp_i ->
       let sp' := state_of (@Space.learn faulty_learner trainable_space) in
       if returned (@Space.learn_level faulty_learner i sp_i)
       then Space.learning_data sp' !! i = Some []
       else returned (@Space.learn faulty_learner trainable_space) = false /\
            Space.learning_data sp' !! i = Some data /\
            forall j, (i < j)%nat ->
              Space.levels sp' !! j = Space.levels trainable_space !! j /\
              Space.learning_data sp' !! j = Space.learning_data trainable_space !! j).
Proof.
  apply (@learning_cycle_recalibrates_each_space faulty_learner
           two_space_server "b" trainable_space).
  vm_compute. reflexivity.
Defined.

(** The pass of the witness: the learn of ["b"] returns and has emptied
    both sample lists, although the learn of ["a"] raised. *)
Example learning_cycle_example :
  returned (@Space.learn faulty_learner example_space) = false /\
  returned (@Space.learn faulty_learner trainable_space) = true /\
  Space.learning_data (state_of (@Space.learn faulty_learner trainable_space))
    = <[0%nat := []]> (<[1%nat := []]> ∅).
Proof. vm_compute. done. Qed.

(** C1 as stated fails. Level 0 of the example Space holds ten samples
    and its training raises: [learn] raises, the sample list of level 0
    is not emptied, and level 1, which holds ten samples that train, is
    not recalibrated in this pass: it keeps its curve and its samples. *)
Lemma learn_failure_keeps_samples :
  let L := faulty_learner in
  let sp' := state_of (@Space.learn L example_space) in
  returned (@Space.learn L example_space) = false /\
  length <$> Space.learning_data example_space !! 0%nat = Some 10%nat /\
  Space.learning_data sp' !! 0%nat = Space.learning_data example_space !! 0%nat /\
  length <$> Space.learning_data example_space !! 1%nat = Some 10%nat /\
  returned (@Space.learn_level L 1 example_space) = true /\
  Space.learning_data sp' !! 1%nat = Space.learning_data example_space !! 1%nat /\
  Space.levels sp' !! 1%nat = Space.levels example_space !! 1%nat.
Proof. vm_compute. repeat split. Qed.

(** A failure after a success. Level 0 of this Space trains and level 1
    does not: [learn] raises, level 0 has been cleared and its curve
    rewritten all the same, and level 1 keeps its samples and its
    curve. *)
Example learn_late_failure :
  let L := faulty_learner in
  let sp' := state_of (@Space.learn L late_failure_space) in
  returned (@Space.learn L late_failure_space) = false /\
  Space.learning_data sp' !! 0%nat = Some [] /\
  Level.winning_curve <$> Space.levels sp' !! 0%nat = Some [10%Q] /\
  Space.learning_data sp' !! 1%nat = Space.learning_data late_failure_space !! 1%nat /\
  Space.levels sp' !! 1%nat = Space.levels late_failure_space !! 1%nat.
Proof. vm_compute. repeat split. Qed.

(** ** The learning thread and the lock *)

Lemma run_done (fuel : nat) (lk : option nat) (sp : Space.t) :
  run (replicate fuel 0%nat) (mkPool [Done] lk sp) = mkPool [Done] lk sp.
Proof. induction fuel as [|fuel IH]; [done|]. simpl. exact IH. Qed.

Lemma step_alone (c : M Space.t thread) (sp : Space.t) :
  step 0 (mkPool [Step c] None sp)
  = match c sp with
    | Returned k s => mkPool [k] None s
    | Raised _ s => mkPool [Done] None s
    end.
Proof. unfold step. simpl. by destruct (c sp). Qed.

Lemma run_cons (tid : nat) (schedule : list nat) (p : Pool) :
  run (tid :: schedule) p = run schedule (step tid p).
Proof. reflexivity. Qed.

Section ThreadProperties.
Context `{Learner}.

(** Stepped alone, the iterations of the learning thread are the
    iterations of [Space.learn]. *)
Lemma run_alone_learn_from (indices : list nat) (fuel : nat) (sp : Space.t) :
  (2 * length indices <= fuel)%nat ->
  run_alone fuel (learn_thread_from indices) sp
  = state_of (for_each indices Space.learn_level sp).
Proof.
  unfold run_alone. revert fuel sp.
  induction indices as [|i rest IH]; intros fuel sp Hfuel.
  - simpl learn_thread_from. by rewrite run_done.
  - destruct fuel as [|[|fuel]]; simpl in Hfuel; try lia.
    cbn [for_each learn_thread_from replicate].
    rewrite run_cons, step_alone.
    unfold Space.learn_level. unfold bind, ret.
    destruct (Space.fit i sp) as [[] s1|e s1].
    + rewrite run_cons, step_alone. unfold Space.clear, modify.
      apply IH. lia.
    + apply (IH (S fuel)). lia.
    + cbn [state_of]. by rewrite (run_done (S fuel)).
Qed.

Lemma run_alone_learn (fuel : nat) (sp : Space.t) :
  (2 * length (Space.levels sp) + 1 <= fuel)%nat ->
  run_alone fuel learn_thread sp = state_of (Space.learn sp).
Proof.
  intros Hfuel. destruct fuel as [|fuel]; [lia|].
  unfold Space.learn, bind, gets. rewrite for_each_enumerate.
  rewrite <- (run_alone_learn_from _ fuel) by (rewrite length_seq; lia).
  reflexivity.
Qed.

End ThreadProperties.

(** A thread that enters [with self.lock] while another thread holds the
    lock waits: this is what makes two feedback calls exclude each other. *)
Lemma acquire_waits (tid owner : nat) (k : thread) (p : Pool) :
  threads p !! tid = Some (Acquire k) ->
  lock p = Some owner ->
  step tid p = p.
Proof. intros Ht Hl. unfold step. by rewrite Ht, Hl. Qed.

(** C9 fails on the code: [Space.learn] never enters [with self.lock].
    On the example pool (thread 0 the learning thread, thread 1 a feedback
    call for bucket 0 of both levels, ten samples on each level):
    - after the feedback thread has taken the lock, the learning thread
      still steps and empties the sample list of level 0;
    - when the feedback call runs between the training of level 0 and the
      emptying of its sample list, the sample it appends is dropped
      without having been trained on: the curve of level 0 is the one of
      ten samples and the list is empty, where either order of the two
      calls alone leaves the sample in the list (learning first) or in
      the training set of eleven (feedback first). *)
Theorem learn_steps_beside_the_lock :
  let curve0 p := Level.winning_curve <$> Space.levels (shared p) !! 0%nat in
  let data0 p := length <$> Space.learning_data (shared p) !! 0%nat in
  let held := run [0; 0; 1]%nat example_pool in
  let racy := run [0; 0; 1; 1; 1; 0; 0; 0]%nat example_pool in
  let learn_first := run [0; 0; 0; 0; 0; 1; 1; 1]%nat example_pool in
  let feedback_first := run [1; 1; 1; 0; 0; 0; 0; 0]%nat example_pool in
  (lock held = Some 1%nat /\ data0 held = Some 10%nat /\
   lock (step 0 held) = Some 1%nat /\ data0 (step 0 held) = Some 0%nat) /\
  (all_done racy = true /\ curve0 racy = Some [10%Q] /\ data0 racy = Some 0%nat) /\
  (all_done learn_first = true /\
   curve0 learn_first = Some [10%Q] /\ data0 learn_first = Some 1%nat) /\
  (all_done feedback_first = true /\
   curve0 feedback_first = Some [11%Q] /\ data0 feedback_first = Some 0%nat).
Proof. vm_compute. repeat split. Qed.

Lemma learn_skips_small_levels_witness :
  Space.levels (state_of (@Space.learn counting_learner
                   (Space.init "ctx" [Level.init [Bucket.init 1 2 10 0.5]]))) !! 0%nat
    = Space.levels (Space.init "ctx" [Level.init [Bucket.init 1 2 10 0.5]]) !! 0%nat /\
  Space.learning_data (state_of (@Space.learn counting_learner
                         (Space.init "ctx" [Level.init [Bucket.init 1 2 10 0.5]]))) !! 0%nat
    = Some [].
Proof.
  apply (@learn_skips_small_levels counting_learner
           (Space.init "ctx" [Level.init [Bucket.init 1 2 10 0.5]]) 0 []).
  - reflexivity.
  - simpl. lia.
Defined.

(** * Further properties of the code *)

(** ** The window of a Bucket *)

Lemma updates_snoc (outcomes : list bool) (o : bool) (b : Bucket.t) :
  Bucket.updates (outcomes ++ [o]) b
  = state_of (Bucket.update o (Bucket.updates outcomes b)).
Proof. unfold Bucket.updates. by rewrite fold_left_app. Qed.

(** One call puts the outcome in front and keeps the window within its
    capacity by dropping the oldest entry. *)
Lemma update_buffer (o : bool) (b : Bucket.t) :
  1 <= Bucket.size b ->
  Z.of_nat (length (Bucket.buffer b)) <= Bucket.size b ->
  Bucket.buffer (state_of (Bucket.update o b))
  = take (Z.to_nat (Bucket.size b)) (o :: Bucket.buffer b).
Proof.
  intros Hs Hl. destruct b as [l r a b buf sz d p q]. simpl in *.
  unfold_update. rewrite Z.geb_leb.
  destruct (Z.leb_spec sz (Z.of_nat (length buf))) as [Efull|Efull]; cbn.
  - destruct (pop buf) as [[rest oldest]|] eqn:Epop; cbn.
    2:{ apply pop_None in Epop. subst buf. simpl in *. lia. }
    apply pop_Some in Epop. subst buf. rewrite length_app in Hl, Efull.
    simpl in Hl, Efull.
    assert (take (Z.to_nat sz) (o :: rest ++ [oldest]) = o :: rest) as ->.
    { replace (Z.to_nat sz) with (S (length rest)) by lia.
      simpl. f_equal. apply take_app_length. }
    destruct oldest, o; cbn; case_ratio E; done.
  - rewrite take_ge by (simpl; lia).
    destruct o; cbn; case_ratio E; done.
Qed.

(** After any sequence of outcomes fed to a fresh Bucket of capacity at
    least one, the buffer holds the latest [size] outcomes, newest first,
    and [alpha] and [beta] are one more than the wins and the losses
    among them. *)
Theorem window_holds_latest_outcomes
    (lhs rhs : Q) (size : Z) (discount : Q) (outcomes : list bool) :
  1 <= size ->
  let b := Bucket.updates outcomes (Bucket.init lhs rhs size discount) in
  Bucket.buffer b = take (Z.to_nat size) (rev outcomes) /\
  (Bucket.alpha b == 1 + inject_Z (tally true (Bucket.buffer b)))%Q /\
  (Bucket.beta b == 1 + inject_Z (tally false (Bucket.buffer b)))%Q.
Proof.
  intros Hs b.
  destruct (updates_counts_inv outcomes (Bucket.init lhs rhs size discount)
              (init_counts_inv _ _ _ _)) as [Ha Hb].
  split; [|by split]. subst b. clear Ha Hb.
  induction outcomes as [|o os IH] using rev_ind; [simpl; by rewrite take_nil|].
  rewrite updates_snoc.
  destruct (updates_window_inv os (Bucket.init lhs rhs size discount) Hs
              (init_counts_inv _ _ _ _) (init_window_inv _ _ _ _ Hs))
    as (_ & [_ Hlen] & _ & Hsize).
  simpl Bucket.size in Hsize.
  assert (Z.of_nat (length (Bucket.buffer (Bucket.updates os
            (Bucket.init lhs rhs size discount)))) <= size) as Hle by lia.
  rewrite update_buffer by (rewrite Hsize; done).
  rewrite Hsize, IH, rev_app_distr. simpl.
  destruct (Z.to_nat size) as [|n] eqn:En; [lia|]. simpl. f_equal.
  rewrite take_take. f_equal. lia.
Qed.

Lemma window_holds_latest_outcomes_witness :
  let b := Bucket.updates [true; false; true] (Bucket.init 1 2 2 0.5) in
  Bucket.buffer b = take (Z.to_nat 2) (rev [true; false; true]) /\
  (Bucket.alpha b == 1 + inject_Z (tally true (Bucket.buffer b)))%Q /\
  (Bucket.beta b == 1 + inject_Z (tally false (Bucket.buffer b)))%Q.
Proof.
  apply (window_holds_latest_outcomes 1 2 2 0.5 [true; false; true]). lia.
Defined.

Lemma ratio_mono (a b a' b' : Q) :
  (1 <= a -> 1 <= b' -> a <= a' -> b' <= b -> a / (a + b) <= a' / (a' + b'))%Q.
Proof.
  intros Ha Hb' Haa Hbb.
  apply Qle_shift_div_r; [lra|].
  assert (a' / (a' + b') * (a + b) == a' * (a + b) / (a' + b'))%Q as -> by (field; lra).
  apply Qle_shift_div_l; [lra|]. nra.
Qed.

(** A win fed to a consistent Bucket whose estimate is not above its
    current win ratio does not lower the estimate, and leaves it not
    above the new ratio. *)
Lemma update_win_raises_pr (b : Bucket.t) :
  1 <= Bucket.size b ->
  (0 <= Bucket.discount b <= 1)%Q ->
  counts_inv b ->
  (Bucket.pr b <= Bucket.alpha b / (Bucket.alpha b + Bucket.beta b))%Q ->
  let b' := state_of (Bucket.update true b) in
  (Bucket.pr b <= Bucket.pr b')%Q /\
  (Bucket.pr b' <= Bucket.alpha b' / (Bucket.alpha b' + Bucket.beta b'))%Q.
Proof.
  intros Hs Hd [Ha Hb] Hp. destruct b as [l r a b buf sz d p q]. simpl in *.
  unfold_update. rewrite Z.geb_leb.
  pose proof (inject_tally_nonneg true buf) as Ht.
  pose proof (inject_tally_nonneg false buf) as Hf.
  assert (forall a' b' : Q, 1 <= a' -> 1 <= b' -> a <= a' -> b' <= b ->
            p <= d * p + (1 - d) * (a' / (a' + b')) /\
            d * p + (1 - d) * (a' / (a' + b')) <= a' / (a' + b'))%Q as Hstep.
  { intros a' b' H1 H2 H3 H4.
    assert (a / (a + b) <= a' / (a' + b'))%Q by (apply ratio_mono; lra).
    set (r' := (a' / (a' + b'))%Q) in *. split; nra. }
  destruct (Z.leb_spec sz (Z.of_nat (length buf))) as [Efull|Efull]; cbn.
  - destruct (pop buf) as [[rest oldest]|] eqn:Epop; cbn.
    2:{ apply pop_None in Epop. subst buf. simpl in *. lia. }
    apply pop_Some in Epop. subst buf.
    rewrite !tally_app in Ha, Hb.
    pose proof (inject_tally_nonneg true rest) as Ht'.
    pose proof (inject_tally_nonneg false rest) as Hf'.
    destruct oldest; cbn; case_ratio E; try no_zero_division E;
      apply Hstep; q_norm; lra.
  - cbn; case_ratio E; try no_zero_division E. apply Hstep; q_norm; lra.
Qed.

(** A fresh Bucket that is fed wins only: each further win leaves the
    estimate [pr] where it was or raises it, for any discount in [0,1]
    and any capacity of at least one. *)
Theorem wins_never_lower_pr
    (lhs rhs : Q) (size : Z) (discount : Q) (n : nat) :
  1 <= size ->
  (0 <= discount <= 1)%Q ->
  let b0 := Bucket.init lhs rhs size discount in
  (Bucket.pr (Bucket.updates (replicate n true) b0)
   <= Bucket.pr (Bucket.updates (replicate (S n) true) b0))%Q.
Proof.
  intros Hs Hd b0.
  assert (forall k, let b := Bucket.updates (replicate k true) b0 in
            Bucket.size b = size /\ Bucket.discount b = discount /\ counts_inv b /\
            (Bucket.pr b <= Bucket.alpha b / (Bucket.alpha b + Bucket.beta b))%Q) as Hinv.
  { induction k as [|k IH].
    - simpl. repeat split; done.
    - rewrite replicate_S_end, updates_snoc. destruct IH as (Hsz & Hdi & Hc & Hp).
      destruct (update_frame true (Bucket.updates (replicate k true) b0))
        as (Es & Ed & _).
      destruct (update_win_raises_pr (Bucket.updates (replicate k true) b0))
        as [_ Hp']; rewrite ?Hsz, ?Hdi; try done.
      cbv zeta. rewrite Es, Ed. split; [done|]. split; [done|].
      split; [by apply update_counts_inv |]. exact Hp'. }
  destruct (Hinv n) as (Hsz & Hdi & Hc & Hp).
  rewrite (replicate_S_end n), updates_snoc.
  apply update_win_raises_pr; rewrite ?Hsz, ?Hdi; done.
Qed.

Lemma wins_never_lower_pr_witness :
  (Bucket.pr (Bucket.updates (replicate 3 true) (Bucket.init 1 2 10 0.5))
   <= Bucket.pr (Bucket.updates (replicate 4 true) (Bucket.init 1 2 10 0.5)))%Q.
Proof.
  apply (wins_never_lower_pr 1 2 10 0.5 3); [lia | split; discriminate].
Defined.

(** ** Locating a price in any list of buckets *)

Lemma sample_buckets_from_spec (bs : list Bucket.t) (i : Z) (price : Q) :
  (Level.sample_buckets_from i bs price = -1 /\
   forall b, b ∈ bs -> Level.contains b price = false) \/
  (exists (k : nat) (b : Bucket.t),
     Level.sample_buckets_from i bs price = i + Z.of_nat k /\
     bs !! k = Some b /\ Level.contains b price = true /\
     forall k' b', (k' < k)%nat -> bs !! k' = Some b' -> Level.contains b' price = false).
Proof.
  revert i. induction bs as [|b bs IH]; intros i; simpl.
  - left. split; [done|]. intros b Hb. by apply elem_of_nil in Hb.
  - destruct (Level.contains b price) eqn:E.
    + right. exists 0%nat, b. repeat split; try done; [lia | intros; lia].
    + destruct (IH (i + 1)) as [[Hnone Hall]|(k & b1 & Hk & Hb1 & Hin & Hfirst)].
      * left. split; [done|]. intros b' Hb'.
        apply elem_of_cons in Hb' as [->|Hb']; [done|by apply Hall].
      * right. exists (S k), b1. repeat split; try done; [lia|].
        intros [|k'] b' Hlt Hb'; simpl in Hb'; [by injection Hb' as <-|].
        eapply Hfirst; [|done]. lia.
Qed.

(** For any Level, whatever its buckets, [sample_buckets] returns either
    -1, and then no bucket holds the price, or the index of the first
    bucket that holds it; the result is never another negative number
    and never an index past the last bucket. *)
Theorem sample_buckets_first_match (lvl : Level.t) (price : Q) :
  (Level.sample_buckets lvl price = -1 /\
   forall b, b ∈ Level.buckets lvl -> Level.contains b price = false) \/
  (exists (i : nat) (b : Bucket.t),
     Level.sample_buckets lvl price = Z.of_nat i /\
     Level.buckets lvl !! i = Some b /\
     Level.contains b price = true /\
     forall i' b', (i' < i)%nat -> Level.buckets lvl !! i' = Some b' ->
                   Level.contains b' price = false).
Proof.
  unfold Level.sample_buckets.
  destruct (sample_buckets_from_spec (Level.buckets lvl) 0 price)
    as [H|(k & b & Hk & H)]; [by left|].
  right. exists k, b. by rewrite Hk, Z.add_0_l.
Qed.

(** ** linspace *)

Lemma length_linspace_from64 (n : nat) (prev step : float) :
  length (B64.linspace_from n prev step) = n.
Proof. revert prev. induction n as [|n IH]; intros prev; simpl; by rewrite ?IH. Qed.

Lemma linspace_from_steps (n : nat) (prev step : float) (i : nat) (x y : float) :
  (prev :: B64.linspace_from n prev step) !! i = Some x ->
  (prev :: B64.linspace_from n prev step) !! S i = Some y ->
  y = (x + step)%float.
Proof.
  revert prev i. induction n as [|n IH]; intros prev i Hx Hy.
  - by destruct i.
  - destruct i as [|i]; simpl in *.
    + injection Hx as <-. by injection Hy as <-.
    + by apply (IH (prev + step)%float i).
Qed.

(** X5. [linspace] raises IndexError on a level count below one.
    Otherwise it returns [level_size] values: the first is [LAMBDA_MIN]
    and each later one is its predecessor plus the step
    [(LAMBDA_MAX - LAMBDA_MIN) / float(level_size - 1)], every sum
    rounded. The last one need not be [LAMBDA_MAX]: for three levels
    the values are 0.1, 0.95 and 1.7999999999999998. *)
Theorem linspace_steps {St} (level_size : Z) (s : St) :
  (level_size <= 0 -> B64.linspace level_size s = Raised IndexError s) /\
  (1 <= level_size ->
   exists lambdas,
     B64.linspace level_size s = Returned lambdas s /\
     length lambdas = Z.to_nat level_size /\
     head lambdas = Some B64.LAMBDA_MIN /\
     forall i x y, lambdas !! i = Some x -> lambdas !! S i = Some y ->
       y = (x + B64.linspace_step level_size)%float) /\
  B64.linspace 3 s = Returned [0.1; 0.95; 1.7999999999999998]%float s /\
  (1.7999999999999998 <? B64.LAMBDA_MAX)%float = true.
Proof.
  unfold B64.linspace. split; [|split; [|split]].
  - intros Hle. by destruct (Z.leb_spec level_size 0); [|lia].
  - intros Hge. destruct (Z.leb_spec level_size 0); [lia|].
    destruct (Z.eqb_spec level_size 1) as [->|Hne].
    + exists [B64.LAMBDA_MIN]. repeat split. intros [|i] x y; done.
    + eexists. split; [reflexivity|]. split; [|split; [done|]].
      * simpl. rewrite length_linspace_from64. lia.
      * intros i x y. apply linspace_from_steps.
  - vm_compute. reflexivity.
  - vm_compute. reflexivity.
Qed.

Lemma length_linspace_from (n : nat) (prev step : Q) :
  length (linspace_from n prev step) = n.
Proof. revert prev. induction n as [|n IH]; intros prev; simpl; [done|]. by rewrite IH. Qed.

(** ** When the grid construction fails *)

Lemma elem_of_insert_sorted (x y : Q) (l : list Q) :
  y ∈ insert_sorted x l <-> y = x \/ y ∈ l.
Proof.
  induction l as [|z l IH]; simpl.
  - rewrite list_elem_of_singleton, elem_of_nil. tauto.
  - destruct (Qle_bool x z); rewrite !elem_of_cons; [tauto|]. rewrite IH. tauto.
Qed.

Lemma elem_of_sort (y : Q) (l : list Q) : y ∈ sort l <-> y ∈ l.
Proof.
  induction l as [|x l IH]; simpl; [done|].
  rewrite elem_of_insert_sorted, elem_of_cons, IH. tauto.
Qed.

Lemma sorted_between (x : Q) (l : list Q) (y : Q) :
  StronglySorted Qle (x :: l) -> y ∈ x :: l -> (x <= y <= last_of x l)%Q.
Proof.
  revert x. induction l as [|z l IH]; intros x Hs Hy.
  - apply list_elem_of_singleton in Hy as ->. simpl. lra.
  - apply StronglySorted_inv in Hs as [Hs Hx].
    apply Forall_cons in Hx as [Hxz Hx]. simpl.
    apply elem_of_cons in Hy as [->|Hy].
    + pose proof (sorted_last_of _ _ Hs). lra.
    + specialize (IH z Hs Hy). lra.
Qed.

Lemma last_of_elem (x : Q) (l : list Q) : last_of x l ∈ x :: l.
Proof.
  revert x. induction l as [|z l IH]; intros x; simpl; [by left|]. right. apply IH.
Qed.

Section GridFailure.
Context `{Random}.

(** X6. What [generate_bucket_bounds] does is decided by the values it
    has drawn. With no draw at all ([n_buckets < 0]) the empty list is
    indexed: IndexError. With draws that all coincide, a single draw
    ([n_buckets = 0]) among them, the rescaling divides by zero:
    ZeroDivisionError. When two draws differ the call returns, with as
    many bounds as it has drawn values. The generator is left as the
    draws left it in each case. *)
Theorem generate_bucket_bounds_outcome
    (lambda_param min_price max_price : Q) (n_buckets : Z) (g g1 : rng)
    (draws : list Q) :
  draw (Z.to_nat (n_buckets + 1)) lambda_param g = Returned draws g1 ->
  let r := generate_bucket_bounds lambda_param min_price max_price n_buckets g in
  length draws = Z.to_nat (n_buckets + 1) /\
  (draws = [] -> r = Raised IndexError g1) /\
  (draws <> [] -> (forall x y, x ∈ draws -> y ∈ draws -> (x == y)%Q) ->
   r = Raised ZeroDivisionError g1) /\
  ((exists x y, x ∈ draws /\ y ∈ draws /\ (x < y)%Q) ->
   exists scaled, r = Returned scaled g1 /\ length scaled = length draws).
Proof.
  intros Hdraw r. subst r. unfold generate_bucket_bounds, bind. rewrite Hdraw.
  pose proof (sort_sorted draws) as Hs. pose proof (length_sort draws) as Hls.
  assert (forall y, y ∈ sort draws <-> y ∈ draws) as Hmem by (intros; apply elem_of_sort).
  split.
  { destruct (draw_returns (Z.to_nat (n_buckets + 1)) lambda_param g)
      as (l & g' & Hl & Hlen). rewrite Hdraw in Hl.
    apply Returned_inv in Hl as [<- _]. done. }
  destruct (sort draws) as [|mi rest].
  - destruct draws; [|done]. split; [done|]. split; [done|].
    intros (x & y & Hx & _). by apply elem_of_nil in Hx.
  - assert (draws <> []) as Hne by (intros ->; done).
    split; [done|].
    destruct (Qeq_bool (last_of mi rest - mi) 0) eqn:E.
    + split; [done|]. intros (x & y & Hx & Hy & Hlt). exfalso.
      apply Hmem in Hx, Hy. apply Qeq_bool_eq in E.
      pose proof (sorted_between _ _ _ Hs Hx). pose proof (sorted_between _ _ _ Hs Hy).
      lra.
    + split.
      * intros _ Hall. exfalso.
        assert (last_of mi rest == mi)%Q as Heq.
        { apply Hall; apply Hmem; [apply last_of_elem|by left]. }
        assert (last_of mi rest - mi == 0)%Q as Hz by lra.
        apply Qeq_bool_iff in Hz. congruence.
      * intros _. eexists. split; [reflexivity|]. by rewrite length_map.
Qed.

End GridFailure.

Lemma generate_bucket_bounds_outcome_witness :
  let r := @generate_bucket_bounds replay 0.1 1 2 2 [4; 4; 4]%Q in
  length [4; 4; 4]%Q = Z.to_nat (2 + 1) /\
  ([4; 4; 4]%Q = [] -> r = Raised IndexError []) /\
  ([4; 4; 4]%Q <> [] ->
   (forall x y, x ∈ [4; 4; 4]%Q -> y ∈ [4; 4; 4]%Q -> (x == y)%Q) ->
   r = Raised ZeroDivisionError []) /\
  ((exists x y, x ∈ [4; 4; 4]%Q /\ y ∈ [4; 4; 4]%Q /\ (x < y)%Q) ->
   exists scaled, r = Returned scaled [] /\ length scaled = length [4; 4; 4]%Q).
Proof.
  apply (@generate_bucket_bounds_outcome replay 0.1 1 2 2 [4; 4; 4]%Q []).
  reflexivity.
Defined.

(** The three outcomes on the replayed draws 4, 4, 5. *)
Example generate_bucket_bounds_outcomes :
  @generate_bucket_bounds replay 0.1 1 2 (-1) [4; 4; 5]%Q = Raised IndexError [4; 4; 5]%Q /\
  @generate_bucket_bounds replay 0.1 1 2 1 [4; 4; 5]%Q = Raised ZeroDivisionError [5]%Q /\
  returned (@generate_bucket_bounds replay 0.1 1 2 2 [4; 4; 5]%Q) = true.
Proof. repeat split; reflexivity. Qed.

(** ** update_feedback on a well-formed Space *)

Lemma py_index_lt (n : nat) (i : Z) (j : nat) : py_index n i = Some j -> (j < n)%nat.
Proof.
  unfold py_index.
  destruct (Z.leb_spec 0 i), (Z.ltb_spec i (Z.of_nat n)); simpl;
    try (intros [= <-]; lia);
    destruct (Z.leb_spec (- Z.of_nat n) i), (Z.ltb_spec i 0); simpl;
    try done; intros [= <-]; lia.
Qed.

Lemma at_bucket_run {A} (i : nat) (bID : Z) (c : M Bucket.t A) (sp : Space.t)
    (lvl : Level.t) (j : nat) (b : Bucket.t) :
  Space.levels sp !! i = Some lvl ->
  py_index (length (Level.buckets lvl)) bID = Some j ->
  Level.buckets lvl !! j = Some b ->
  Space.at_bucket i bID c sp
  = let store b' :=
      Space.set_levels
        (fun ls => <[i := Level.set_buckets (fun bs => <[j := b']> bs) lvl]> ls) sp in
    match c b with
    | Returned a b' => Returned a (store b')
    | Raised e b' => Raised e (store b')
    end.
Proof.
  intros Hl Hj Hb. unfold Space.at_bucket, Space.level_at, bind, or_raise, ret.
  rewrite Hl. simpl. rewrite Hj. simpl. by rewrite Hb.
Qed.

Lemma update_bucket_ok (o : bool) (b : Bucket.t) :
  bucket_ok b ->
  exists b', Bucket.update o b = Returned tt b' /\ bucket_ok b' /\
             Bucket.lhs b' = Bucket.lhs b /\ Bucket.rhs b' = Bucket.rhs b.
Proof.
  intros [Hs Hd Hp Hc Hw].
  destruct (update_returns o b Hs Hc Hw) as (Hr & Hw' & _).
  destruct (update_frame o b) as (Es & Ed & El & Er).
  pose proof (update_counts_inv o b Hc) as Hc'.
  pose proof (update_pr_bounds o b Hd Hc Hp) as Hp'.
  destruct (Bucket.update o b) as [[] b'|e b']; [|done]. simpl in *.
  exists b'. split; [done|]. split; [|done].
  split; try done; [by rewrite Es | by rewrite Ed].
Qed.

(** One iteration of the loop on a well-formed Space, for an index that
    [sample_buckets] can return or any other index in range. *)
Lemma update_feedback_at_ok (impression : bool) (i : nat) (bID : Z) (sp : Space.t)
    (lvl : Level.t) :
  space_wf sp ->
  Space.levels sp !! i = Some lvl ->
  bID = -1 \/ is_Some (py_index (length (Level.buckets lvl)) bID) ->
  exists sp' lvl',
    update_feedback_at impression i bID sp = Returned tt sp' /\
    space_wf sp' /\
    same_elsewhere i sp sp' /\
    Space.levels sp' !! i = Some lvl' /\
    geometry lvl' = geometry lvl /\
    (bID = -1 -> sp' = sp) /\
    (bID <> -1 ->
     exists data s,
       Space.learning_data sp !! i = Some data /\
       Space.learning_data sp' !! i = Some (data ++ [s]) /\
       sample_impression s = (if impression then 1 else 0)).
Proof.
  intros Hwf Hl Hidx. unfold update_feedback_at.
  destruct (Z.eqb_spec bID (-1)) as [->|Hne].
  { exists sp, lvl. split; [done|]. split; [done|].
    split; [apply same_elsewhere_refl|]. by repeat split. }
  destruct Hidx as [?|[j Hj]]; [done|].
  pose proof (py_index_lt _ _ _ Hj) as Hjlt.
  destruct (lookup_lt_is_Some_2 (Level.buckets lvl) j Hjlt) as [b Hb].
  destruct Hwf as [Hlevels Hdata].
  pose proof (Forall_lookup_1 _ _ _ _ Hlevels Hl) as [Hcurve Hbuckets].
  pose proof (Forall_lookup_1 _ _ _ _ Hbuckets Hb) as Hbok.
  destruct (update_bucket_ok impression b Hbok) as (b' & Hupd & Hbok' & Elhs & Erhs).
  assert (i < length (Space.levels sp))%nat as Hi by (by eapply lookup_lt_Some).
  destruct (Hdata i Hi) as [data Hd].
  set (lvl' := Level.set_buckets (fun bs => <[j := b']> bs) lvl).
  set (sp1 := Space.set_levels (fun ls => <[i := lvl']> ls) sp).
  assert (Space.levels sp1 !! i = Some lvl') as Hl1.
  { subst sp1. simpl. by apply list_lookup_insert_eq. }
  assert (Level.buckets lvl' !! j = Some b') as Hb1.
  { subst lvl'. simpl. by apply list_lookup_insert_eq. }
  assert (py_index (length (Level.buckets lvl')) bID = Some j) as Hj1.
  { subst lvl'. simpl. by rewrite length_insert. }
  unfold bind. rewrite (at_bucket_run i bID _ sp lvl j b Hl Hj Hb). cbv zeta.
  rewrite Hupd. fold lvl'. fold sp1.
  assert (Space.learning_data sp1 !! i = Some data) as Hd1 by done.
  unfold Space.data_at, or_raise, ret. rewrite Hd1.
  rewrite (at_bucket_run i bID get sp1 lvl' j b' Hl1 Hj1 Hb1). cbv zeta.
  unfold get, modify.
  set (sp2 := Space.set_learning_data _ _).
  assert (Space.levels sp2 = <[i := lvl']> (Space.levels sp)) as Hlev2.
  { subst sp2 sp1. simpl. rewrite list_insert_insert_eq. f_equal.
    subst lvl'. unfold Level.set_buckets. simpl. by rewrite list_insert_insert_eq. }
  exists sp2, lvl'. split; [done|].
  assert (level_ok lvl') as Hlok'.
  { split; subst lvl'; simpl; [by rewrite length_insert|].
    apply Forall_insert; done. }
  split; [|split; [|split; [|split; [|split]]]].
  - split.
    + rewrite Hlev2. by apply Forall_insert.
    + intros k Hk. rewrite Hlev2, length_insert in Hk. subst sp2. simpl.
      destruct (decide (k = i)) as [->|Hki]; [by rewrite lookup_insert_eq|].
      rewrite lookup_insert_ne by done. by apply Hdata.
  - split; [by rewrite Hlev2, length_insert|]. intros k Hk.
    rewrite Hlev2. rewrite list_lookup_insert_ne by done. split; [done|].
    subst sp2. simpl. by rewrite lookup_insert_ne.
  - rewrite Hlev2. by apply list_lookup_insert_eq.
  - unfold geometry. subst lvl'. simpl. f_equal.
    apply list_eq. intros k. rewrite !list_lookup_fmap.
    destruct (decide (k = j)) as [->|Hkj].
    + rewrite list_lookup_insert_eq by done. rewrite Hb. simpl. by rewrite Elhs, Erhs.
    + by rewrite list_lookup_insert_ne.
  - done.
  - intros _. eexists data, _. split; [done|].
    split; [subst sp2; simpl; rewrite lookup_insert_eq; reflexivity | reflexivity].
Qed.

(** A loop over [enumerate(xs)] whose iterations return and carry an
    invariant indexed by the number of iterations done. *)
Lemma for_each_enumerate_ind {S A} (P : nat -> S -> Prop) (xs : list A)
    (body : nat -> A -> M S unit) (s : S) :
  (forall i x s0, xs !! i = Some x -> P i s0 ->
     exists s1, body i x s0 = Returned tt s1 /\ P (Datatypes.S i) s1) ->
  P 0%nat s ->
  exists s', for_each (enumerate xs) (fun '(i, x) => body i x) s = Returned tt s' /\
             P (length xs) s'.
Proof.
  unfold enumerate. intros Hbody H0.
  enough (forall k s0,
            (forall i x s1, xs !! i = Some x -> P (k + i)%nat s1 ->
               exists s2, body (k + i)%nat x s1 = Returned tt s2 /\
                          P (Datatypes.S (k + i)) s2) ->
            P k s0 ->
            exists s', for_each (imap (fun i x => ((k + i)%nat, x)) xs)
                         (fun '(i, x) => body i x) s0 = Returned tt s' /\
                       P (k + length xs)%nat s') as Hk.
  { apply (Hk 0%nat s); [|done]. intros i x s1. apply Hbody. }
  clear s Hbody H0. induction xs as [|x xs IH]; intros k s0 Hbody Hk; simpl.
  - exists s0. by rewrite Nat.add_0_r.
  - unfold bind. rewrite Nat.add_0_r.
    destruct (Hbody 0%nat x s0) as (s1 & Hrun & H1); [done|by rewrite Nat.add_0_r|].
    rewrite Nat.add_0_r in Hrun, H1. rewrite Hrun.
    destruct (IH (Datatypes.S k) s1) as (s' & Hrest & Hend).
    + intros i y s2 Hy Hs2. replace (Datatypes.S k + i)%nat with (k + Datatypes.S i)%nat by lia.
      apply Hbody; [done|]. by replace (k + Datatypes.S i)%nat with (Datatypes.S k + i)%nat by lia.
    + done.
    + exists s'. split.
      * rewrite <- Hrest. f_equal. apply imap_ext. intros i y _. simpl. f_equal. lia.
      * by replace (k + Datatypes.S (length xs))%nat with (Datatypes.S k + length xs)%nat by lia.
Qed.

(** [update_feedback] on a well-formed Space, with an index per level
    that is -1 or within the buckets of the level. *)
Lemma update_feedback_ok
    (buckets_indices : list Z) (impression : bool) (sp : Space.t) :
  space_wf sp ->
  (length buckets_indices <= length (Space.levels sp))%nat ->
  (forall i bID lvl,
     buckets_indices !! i = Some bID -> Space.levels sp !! i = Some lvl ->
     bID = -1 \/ is_Some (py_index (length (Level.buckets lvl)) bID)) ->
  exists sp',
    Space.update_feedback buckets_indices impression sp = Returned tt sp' /\
    space_wf sp' /\
    length (Space.levels sp') = length (Space.levels sp) /\
    (forall i lvl, Space.levels sp !! i = Some lvl ->
       exists lvl', Space.levels sp' !! i = Some lvl' /\ geometry lvl' = geometry lvl) /\
    (forall i, fed impression (buckets_indices !! i)
                 (Space.learning_data sp !! i) (Space.learning_data sp' !! i)).
Proof.
  intros Hwf Hlen Hidx.
  set (P := fun (k : nat) (s : Space.t) =>
    space_wf s /\
    length (Space.levels s) = length (Space.levels sp) /\
    (forall i, (k <= i)%nat ->
       Space.levels s !! i = Space.levels sp !! i /\
       Space.learning_data s !! i = Space.learning_data sp !! i) /\
    (forall i, (i < k)%nat ->
       (forall lvl, Space.levels sp !! i = Some lvl ->
          exists lvl', Space.levels s !! i = Some lvl' /\ geometry lvl' = geometry lvl) /\
       fed impression (buckets_indices !! i)
         (Space.learning_data sp !! i) (Space.learning_data s !! i))).
  destruct (for_each_enumerate_ind P buckets_indices (update_feedback_at impression) sp)
    as (sp' & Hrun & Hwf' & Hlen' & Hrest & Hdone).
  - intros i bID s0 Hi (Hwf0 & Hlen0 & Hrest0 & Hdone0).
    assert (i < length (Space.levels sp))%nat as Hilt.
    { apply lookup_lt_Some in Hi. lia. }
    destruct (lookup_lt_is_Some_2 (Space.levels sp) i Hilt) as [lvl Hl].
    destruct (Hrest0 i) as [Hl0 Hd0]; [lia|]. rewrite Hl in Hl0.
    destruct (update_feedback_at_ok impression i bID s0 lvl Hwf0 Hl0 (Hidx _ _ _ Hi Hl))
      as (s1 & lvl' & Hrun & Hwf1 & [Hlen1 Hframe] & Hl1 & Hgeo & Hskip & Hadd).
    exists s1. split; [done|]. split; [done|]. split; [congruence|]. split.
    + intros k Hk. destruct (Hframe k) as [? ?]; [lia|].
      destruct (Hrest0 k) as [? ?]; [lia|]. split; congruence.
    + intros k Hk. destruct (decide (k = i)) as [->|Hki].
      * split.
        -- intros lvl0 Hlvl0. exists lvl'. split; [done|]. congruence.
        -- unfold fed. rewrite Hi. destruct (decide (bID = -1)) as [Hneg|Hpos].
           ++ rewrite (Hskip Hneg). done.
           ++ destruct (Hadd Hpos) as (data & s & Hb & Ha & Himp).
              exists data, s. rewrite <- Hd0. done.
      * destruct (Hframe k Hki) as [Hlk Hdk].
        destruct (Hdone0 k) as [Hg Hf]; [lia|]. split.
        -- intros lvl0 Hlvl0. destruct (Hg lvl0 Hlvl0) as (lvl1 & ? & ?).
           exists lvl1. split; [congruence|done].
        -- by rewrite Hdk.
  - split; [done|]. split; [done|]. split; [done|]. intros i Hi. lia.
  - exists sp'. split; [exact Hrun|]. split; [done|]. split; [done|]. split.
    + intros i lvl Hl.
      destruct (decide (i < length buckets_indices)%nat) as [Hlt|Hge].
      * by apply (Hdone i Hlt).
      * destruct (Hrest i) as [Hli _]; [lia|]. exists lvl. split; [congruence|done].
    + intros i. destruct (decide (i < length buckets_indices)%nat) as [Hlt|Hge].
      * by apply (Hdone i Hlt).
      * destruct (Hrest i) as [_ Hdi]; [lia|].
        rewrite (lookup_ge_None_2 buckets_indices i) by lia. done.
Qed.

(** ** load_spaces *)

Lemma init_bucket_ok (lhs rhs : Q) (size : Z) (discount : Q) :
  1 <= size -> (0 <= discount <= 1)%Q ->
  bucket_ok (Bucket.init lhs rhs size discount).
Proof.
  intros Hs Hd.
  split; simpl;
    [done | done | split; lra | apply init_counts_inv | by apply init_window_inv].
Qed.

Lemma level_init_ok (buckets : list Bucket.t) :
  Forall bucket_ok buckets -> level_ok (Level.init buckets).
Proof. intros Hb. split; simpl; [by rewrite length_map|done]. Qed.

Lemma space_init_data (ctx : string) (levels : list Level.t) (i : nat) :
  Space.learning_data (Space.init ctx levels) !! i
  = if decide (i < length levels)%nat then Some [] else None.
Proof.
  simpl. case_decide as Hi.
  - apply elem_of_list_to_map_1.
    + rewrite <- list_fmap_compose. rewrite (list_fmap_ext _ id (seq 0 (length levels)))
        by done. rewrite list_fmap_id. apply NoDup_seq.
    + apply list_elem_of_fmap. exists i. split; [done|]. apply elem_of_seq. lia.
  - apply not_elem_of_list_to_map_1. rewrite <- list_fmap_compose.
    rewrite (list_fmap_ext _ id (seq 0 (length levels))) by done.
    rewrite list_fmap_id, elem_of_seq. lia.
Qed.

Lemma space_init_wf (ctx : string) (levels : list Level.t) :
  Forall level_ok levels -> space_wf (Space.init ctx levels).
Proof.
  intros Hl. split; [done|]. intros i Hi. rewrite space_init_data.
  simpl in Hi. by rewrite decide_True.
Qed.

Lemma check_config_spec `{Random} (cfg : Config) (g : rng) :
  (valid_config cfg /\ check_config cfg g = Returned tt g) \/
  (~ valid_config cfg /\ check_config cfg g = Raised ValueError g).
Proof.
  unfold check_config, valid_config.
  destruct (Z.ltb_spec (level_size cfg) MIN_LEVEL_SIZE); [right; split; [lia|done]|].
  destruct (Z.ltb_spec (bucket_size cfg) MIN_BUCKET_SIZE); [right; split; [lia|done]|].
  destruct (Z.ltb_spec (buffer_size cfg) MIN_BUFFER_SIZE); [right; split; [lia|done]|].
  destruct (Qle_bool 0 (cfg_discount cfg)) eqn:E0; simpl.
  - destruct (Qle_bool (cfg_discount cfg) 1) eqn:E1; simpl.
    + left. apply Qle_bool_iff in E0, E1. done.
    + right. split; [|done]. intros (_ & _ & _ & _ & Hd).
      apply Qle_bool_iff in Hd. congruence.
  - right. split; [|done]. intros (_ & _ & _ & Hd & _).
    apply Qle_bool_iff in Hd. congruence.
Qed.

Lemma fresh_bucket_ok (cfg : Config) (b : Bucket.t) :
  valid_config cfg -> fresh_bucket cfg b -> bucket_ok b.
Proof.
  intros (_ & _ & Hbuf & Hd) (l & r & ->). apply init_bucket_ok; [|done].
  unfold MIN_BUFFER_SIZE in Hbuf. lia.
Qed.

Lemma fresh_space_wf (cfg : Config) (ctx : string) (sp : Space.t) :
  valid_config cfg -> fresh_space cfg ctx sp -> space_wf sp.
Proof.
  intros Hv (levels & -> & _ & Hl). apply space_init_wf.
  eapply Forall_impl; [exact Hl|]. intros lvl (bs & -> & _ & Hbs).
  apply level_init_ok. eapply Forall_impl; [exact Hbs|].
  intros b. by apply fresh_bucket_ok.
Qed.

Section LoadSpaces.
Context `{Random}.

Lemma new_buckets_fresh
    (lambda_param min_price max_price : Q) (cfg : Config) (g g' : rng)
    (bs : list Bucket.t) :
  new_buckets lambda_param min_price max_price cfg g = Returned bs g' ->
  Forall (fresh_bucket cfg) bs.
Proof.
  unfold new_buckets, bind.
  destruct (generate_bucket_bounds _ _ _ _ g) as [bounds g1|]; [|done].
  unfold ret. intros Heq. apply Returned_inv in Heq as [<- _].
  apply Forall_take, Forall_zip_with_any. intros l r. by exists l, r.
Qed.

Lemma new_levels_loop_fresh
    (lambdas : list Q) (min_price max_price : Q) (cfg : Config) (g g' : rng)
    (levels : list Level.t) :
  new_levels_loop lambdas min_price max_price cfg g = Returned levels g' ->
  length levels = length lambdas /\ Forall (fresh_level cfg) levels.
Proof.
  revert g levels.
  induction lambdas as [|lam lambdas IH]; intros g levels; simpl.
  - unfold ret. intros Heq. apply Returned_inv in Heq as [<- _]. by split.
  - unfold bind.
    destruct (new_buckets lam min_price max_price cfg g) as [bs g1|] eqn:Eb; [|done].
    destruct (new_levels_loop lambdas min_price max_price cfg g1) as [lvls g2|] eqn:El;
      [|done].
    unfold ret. intros Heq. apply Returned_inv in Heq as [<- <-].
    destruct (IH _ _ El) as [Hlen Hall]. split; [simpl; by rewrite Hlen|].
    constructor; [|done]. exists bs. split; [done|]. split; [|by eapply new_buckets_fresh].
    revert Eb. unfold new_buckets, bind.
    destruct (generate_bucket_bounds _ _ _ _ g) as [bounds g3|] eqn:Eg; [|done].
    unfold ret. intros Heq. apply Returned_inv in Heq as [<- _].
    revert Eg. unfold generate_bucket_bounds, bind.
    destruct (draw_returns (Z.to_nat (bucket_size cfg + 1)) lam g)
      as (draws & g4 & -> & Hdraws).
    pose proof (length_sort draws) as Hls.
    destruct (sort draws) as [|mi rest]; [done|].
    destruct (Qeq_bool _ _) eqn:E; [done|].
    destruct rest as [|y l].
    { simpl in E. assert (mi - mi == 0)%Q as Hz by lra.
      apply Qeq_bool_iff in Hz. congruence. }
    unfold ret. intros Heq. apply Returned_inv in Heq as [<- _].
    rewrite length_take, length_zip_bounds, length_map. simpl in *. lia.
Qed.

Lemma linspace_length {S} (level_size : Z) (s s' : S) (lambdas : list Q) :
  linspace level_size s = Returned lambdas s' ->
  length lambdas = Z.to_nat level_size.
Proof.
  unfold linspace. destruct (Z.leb_spec level_size 0); [done|].
  destruct (Z.eqb_spec level_size 1) as [->|Hne]; unfold ret; intros Heq;
    apply Returned_inv in Heq as [<- _]; [done|].
  simpl. rewrite length_linspace_from. lia.
Qed.

Lemma new_levels_fresh
    (min_price max_price : Q) (cfg : Config) (g g' : rng) (levels : list Level.t) :
  new_levels min_price max_price cfg g = Returned levels g' ->
  length levels = Z.to_nat (level_size cfg) /\ Forall (fresh_level cfg) levels.
Proof.
  unfold new_levels, bind.
  destruct (linspace (level_size cfg) g) as [lambdas g1|] eqn:El; [|done].
  intros Hloop. destruct (new_levels_loop_fresh _ _ _ _ _ _ _ Hloop) as [Hlen Hall].
  split; [|done]. rewrite Hlen. by eapply linspace_length.
Qed.

Lemma load_spaces_loop_fresh
    (cfg : Config) (buckets_map : gmap string (Q * Q)) (spaces_desc : list SpaceDesc)
    (acc spaces : gmap string Space.t) (g g' : rng) :
  load_spaces_loop cfg buckets_map spaces_desc acc g = Returned spaces g' ->
  (spaces_desc <> [] -> valid_config cfg) /\
  (forall ctx, is_Some (spaces !! ctx)
               <-> is_Some (acc !! ctx) \/ ctx ∈ map desc_context_hash spaces_desc) /\
  ((forall ctx sp, acc !! ctx = Some sp -> fresh_space cfg ctx sp) ->
   forall ctx sp, spaces !! ctx = Some sp -> fresh_space cfg ctx sp).
Proof.
  revert acc g. induction spaces_desc as [|s rest IH]; intros acc g; simpl.
  - unfold ret. intros Heq. apply Returned_inv in Heq as [<- _].
    split; [done|]. split; [|done]. intros ctx. rewrite elem_of_nil. tauto.
  - destruct (match buckets_map !! desc_context_hash s with
              | Some range => range
              | None => (default 0%Q (desc_min_price s), default 1%Q (desc_max_price s))
              end) as [min_price max_price].
    unfold bind.
    destruct (check_config_spec cfg g) as [[Hv ->]|[_ ->]]; [|done].
    destruct (new_levels min_price max_price cfg g) as [levels g1|] eqn:En; [|done].
    intros Hrest. destruct (IH _ _ Hrest) as (_ & Hkeys & Hfresh).
    destruct (new_levels_fresh _ _ _ _ _ _ En) as [Hlen Hall].
    split; [done|]. split.
    + intros ctx. rewrite Hkeys, elem_of_cons, lookup_insert.
      destruct (decide (desc_context_hash s = ctx)) as [->|Hne].
      * split; [by right; left|]. intros _. left. eauto.
      * split; [intros [?|?]; tauto|]. intros [?|[?|?]]; try tauto. congruence.
    + intros Hacc. apply Hfresh. intros ctx sp. rewrite lookup_insert.
      destruct (decide (desc_context_hash s = ctx)) as [->|Hne]; [|by apply Hacc].
      intros [= <-]. by exists levels.
Qed.

(** When [load_spaces] returns, the dictionary has one Space for each
    context hash of the description list and no other; each is as
    [Space.__init__] leaves it, with [level_size] levels of [bucket_size]
    fresh buckets of capacity [buffer_size] and discount [discount]; and
    unless the list is empty the configuration has passed the checks. *)
Theorem load_spaces_builds_fresh_spaces
    (cfg : Config) (buckets_map : gmap string (Q * Q)) (spaces_desc : list SpaceDesc)
    (spaces : gmap string Space.t) (g g' : rng) :
  load_spaces cfg buckets_map spaces_desc g = Returned spaces g' ->
  (spaces_desc <> [] -> valid_config cfg) /\
  (forall ctx, is_Some (spaces !! ctx) <-> ctx ∈ map desc_context_hash spaces_desc) /\
  (forall ctx sp, spaces !! ctx = Some sp -> fresh_space cfg ctx sp).
Proof.
  intros Hload. destruct (load_spaces_loop_fresh _ _ _ _ _ _ _ Hload) as (Hv & Hk & Hf).
  split; [done|]. split.
  - intros ctx. rewrite Hk, lookup_empty. split; [intros [[? ?]|?]; done | by right].
  - apply Hf. intros ctx sp. by rewrite lookup_empty.
Qed.

(** A configuration that fails a check is refused at the first
    description, before any random number is drawn; with no description
    at all nothing is checked and the empty dictionary is returned. *)
Theorem load_spaces_rejects_invalid_config
    (cfg : Config) (buckets_map : gmap string (Q * Q)) (spaces_desc : list SpaceDesc)
    (g : rng) :
  ~ valid_config cfg ->
  load_spaces cfg buckets_map spaces_desc g
  = if spaces_desc is [] then Returned ∅ g else Raised ValueError g.
Proof.
  intros Hbad. destruct spaces_desc as [|s rest]; [done|].
  unfold load_spaces. simpl.
  destruct (match buckets_map !! desc_context_hash s with
            | Some range => range
            | None => (default 0%Q (desc_min_price s), default 1%Q (desc_max_price s))
            end) as [min_price max_price].
  unfold bind. by destruct (check_config_spec cfg g) as [[Hv _]|[_ ->]].
Qed.

End LoadSpaces.

Lemma load_spaces_builds_fresh_spaces_witness :
  exists spaces g',
    @load_spaces replay example_config example_buckets_map example_descs
      (example_draws ++ example_draws) = Returned spaces g' /\
    (example_descs <> [] -> valid_config example_config) /\
    (forall ctx, is_Some (spaces !! ctx) <-> ctx ∈ map desc_context_hash example_descs) /\
    (forall ctx sp, spaces !! ctx = Some sp -> fresh_space example_config ctx sp).
Proof.
  eexists _, _. split; [vm_compute; reflexivity|].
  apply (@load_spaces_builds_fresh_spaces replay example_config example_buckets_map
           example_descs _ (example_draws ++ example_draws) []).
  vm_compute. reflexivity.
Defined.

Lemma load_spaces_rejects_invalid_config_witness :
  @load_spaces replay (mkConfig 2 3 10 0.5) example_buckets_map example_descs example_draws
  = Raised ValueError example_draws.
Proof.
  apply (@load_spaces_rejects_invalid_config replay (mkConfig 2 3 10 0.5)
           example_buckets_map example_descs example_draws).
  intros (_ & Hb & _). unfold MIN_BUCKET_SIZE in Hb. simpl in Hb. lia.
Defined.

(** ** Recording a feedback *)

Lemma py_index_of_nat (n k : nat) : (k < n)%nat -> py_index n (Z.of_nat k) = Some k.
Proof.
  intros Hk. unfold py_index.
  rewrite (proj2 (Z.leb_le 0 (Z.of_nat k))) by lia.
  rewrite (proj2 (Z.ltb_lt (Z.of_nat k) (Z.of_nat n))) by lia.
  simpl. by rewrite Nat2Z.id.
Qed.

Lemma sample_buckets_index (lvl : Level.t) (price : Q) :
  Level.sample_buckets lvl price = -1 \/
  is_Some (py_index (length (Level.buckets lvl)) (Level.sample_buckets lvl price)).
Proof.
  unfold Level.sample_buckets.
  destruct (sample_buckets_from_spec (Level.buckets lvl) 0 price)
    as [[-> _]|(k & b & -> & Hb & _)]; [by left|right].
  rewrite Z.add_0_l, py_index_of_nat; [eauto|]. by eapply lookup_lt_Some.
Qed.

(** What the feedback handler does to a well-formed Space for a price
    and an outcome: it calls [update_feedback] with the indices that
    [sample_buckets] gives level by level. The call returns; each level
    where the price falls in a bucket gets one sample more, at the end of
    its list and labelled with the outcome; each level where it falls in
    none keeps its list; no bucket bound and no winning curve changes;
    and the Space is well-formed again. *)
Theorem record_feedback (sp : Space.t) (price : Q) (impression : bool) :
  space_wf sp ->
  exists sp',
    Space.update_feedback
      (map (fun lvl => Level.sample_buckets lvl price) (Space.levels sp)) impression sp
    = Returned tt sp' /\
    space_wf sp' /\
    forall i lvl, Space.levels sp !! i = Some lvl ->
      (exists lvl', Space.levels sp' !! i = Some lvl' /\ geometry lvl' = geometry lvl) /\
      if decide (Level.sample_buckets lvl price = -1)
      then Space.learning_data sp' !! i = Space.learning_data sp !! i
      else exists data s,
             Space.learning_data sp !! i = Some data /\
             Space.learning_data sp' !! i = Some (data ++ [s]) /\
             sample_impression s = (if impression then 1 else 0).
Proof.
  intros Hwf.
  destruct (update_feedback_ok
              (map (fun lvl => Level.sample_buckets lvl price) (Space.levels sp))
              impression sp Hwf) as (sp' & Hrun & Hwf' & _ & Hgeo & Hfed).
  - by rewrite length_map.
  - intros i bID lvl Hi Hl. rewrite list_lookup_fmap, Hl in Hi. injection Hi as <-.
    apply sample_buckets_index.
  - exists sp'. split; [done|]. split; [done|]. intros i lvl Hl.
    split; [by apply Hgeo|]. specialize (Hfed i). unfold fed in Hfed.
    by rewrite list_lookup_fmap, Hl in Hfed.
Qed.

Lemma small_space_wf : space_wf small_space.
Proof.
  apply space_init_wf. constructor; [|constructor].
  apply level_init_ok. constructor; [|constructor].
  apply init_bucket_ok; [lia | split; lra].
Qed.

Lemma record_feedback_witness :
  exists sp',
    Space.update_feedback
      (map (fun lvl => Level.sample_buckets lvl 1.5) (Space.levels small_space))
      true small_space
    = Returned tt sp' /\
    space_wf sp' /\
    forall i lvl,
      Space.levels small_space !! i = Some lvl ->
      (exists lvl', Space.levels sp' !! i = Some lvl' /\ geometry lvl' = geometry lvl) /\
      if decide (Level.sample_buckets lvl 1.5 = -1)
      then Space.learning_data sp' !! i = Space.learning_data small_space !! i
      else exists data s,
             Space.learning_data small_space !! i = Some data /\
             Space.learning_data sp' !! i = Some (data ++ [s]) /\
             sample_impression s = (if true then 1 else 0).
Proof. exact (record_feedback small_space 1.5 true small_space_wf). Defined.

(** ** Recalibration keeps a Space well-formed *)

Section LearnKeepsWf.
Context `{Learner}.

Lemma curve_store_wf (i j : nat) (pred : Q) (sp : Space.t) :
  space_wf sp -> space_wf (state_of (Space.curve_store i j pred sp)).
Proof.
  intros [Hl Hd].
  unfold Space.curve_store, Space.level_at, bind, or_raise, modify, raise, ret.
  destruct (Space.levels sp !! i) as [lvl|] eqn:E; simpl; [|done].
  destruct (j <? length (Level.winning_curve lvl))%nat; simpl; [|done].
  pose proof (Forall_lookup_1 _ _ _ _ Hl E) as [Hc Hb].
  split; simpl.
  - apply Forall_insert; [done|]. split; simpl; [by rewrite length_insert|done].
  - intros k Hk. rewrite length_insert in Hk. by apply Hd.
Qed.

Lemma fit_wf (i : nat) (sp : Space.t) :
  space_wf sp -> space_wf (state_of (Space.fit i sp)).
Proof.
  intros Hwf.
  unfold Space.fit, Space.level_at, Space.data_at, bind, or_raise, raise, ret.
  destruct (Space.levels sp !! i) as [lvl|]; simpl; [|done].
  destruct (Space.learning_data sp !! i) as [data|]; simpl; [|done].
  destruct (length data <? 10)%nat; simpl; [done|].
  destruct (train _ _) as [m|]; simpl; [|done].
  match goal with
  | |- context [for_each ?xs ?body sp] =>
      pose proof (for_each_invariant space_wf xs body sp) as Hloop;
      destruct (for_each xs body sp) as [[] s1|e s1]
  end; simpl in *; apply Hloop; try done.
  all: intros [j bucket] s0 Hs0;
    destruct (predict _ _ _) as [pred|]; simpl; [|done];
    by apply curve_store_wf.
Qed.

Lemma learn_level_wf (i : nat) (sp : Space.t) :
  space_wf sp -> space_wf (state_of (Space.learn_level i sp)).
Proof.
  intros Hwf. unfold Space.learn_level, bind.
  pose proof (fit_wf i sp Hwf) as Hfit.
  destruct (Space.fit i sp) as [[] s1|e s1]; simpl in *; try done.
  destruct Hfit as [Hl Hd]. split; simpl; [done|].
  intros k Hk. destruct (decide (k = i)) as [->|Hne];
    [by rewrite lookup_insert_eq | rewrite lookup_insert_ne by done; by apply Hd].
Qed.

Lemma learn_wf (sp : Space.t) : space_wf sp -> space_wf (state_of (Space.learn sp)).
Proof.
  intros Hwf. unfold Space.learn, bind, gets. rewrite for_each_enumerate.
  apply for_each_invariant; [|done]. intros i s0. apply learn_level_wf.
Qed.

End LearnKeepsWf.

(** ** The snapshot *)

Lemma map_ends_ext {A} (f : Q -> Q -> A) (bs bs' : list Bucket.t) :
  map (fun b => (Bucket.lhs b, Bucket.rhs b)) bs'
  = map (fun b => (Bucket.lhs b, Bucket.rhs b)) bs ->
  map (fun b => f (Bucket.lhs b) (Bucket.rhs b)) bs'
  = map (fun b => f (Bucket.lhs b) (Bucket.rhs b)) bs /\ length bs' = length bs.
Proof.
  revert bs. induction bs' as [|b' bs' IH]; intros [|b bs]; simpl; try done.
  intros [= Hl Hr Hrest]. destruct (IH bs Hrest) as [-> ->]. by rewrite Hl, Hr.
Qed.

Lemma level_estimation_geometry (lvl lvl' : Level.t) :
  geometry lvl' = geometry lvl -> level_estimation lvl' = level_estimation lvl.
Proof.
  unfold geometry. intros [= Hb Hc]. unfold level_estimation.
  destruct (map_ends_ext (fun l r => l + (r - l) / 2)%Q _ _ Hb) as [-> ->].
  by rewrite Hc.
Qed.

Lemma level_estimation_ok (lvl : Level.t) :
  level_ok lvl ->
  level_estimation lvl
  = Some {| est_price := map (fun b => Bucket.lhs b + (Bucket.rhs b - Bucket.lhs b) / 2)%Q
                           (Level.buckets lvl);
            est_pr := Level.winning_curve lvl |}.
Proof.
  intros [Hc _]. unfold level_estimation. rewrite <- Hc.
  assert (mapM (fun j => Level.winning_curve lvl !! j)
            (seq 0 (length (Level.winning_curve lvl))) = Some (Level.winning_curve lvl)) as ->;
    [|done].
  generalize (Level.winning_curve lvl). intros c.
  apply mapM_Some. rewrite Forall2_lookup. intros j.
  destruct (decide (j < length c)%nat) as [Hj|Hj].
  - rewrite lookup_seq_lt by done. destruct (lookup_lt_is_Some_2 c j Hj) as [x Hx].
    rewrite Hx. by constructor.
  - rewrite lookup_seq_ge by lia. rewrite lookup_ge_None_2 by lia. constructor.
Qed.

Lemma mapM_ext_Forall2 {A B} (f : A -> option B) (l l' : list A) :
  Forall2 (fun a a' => f a' = f a) l l' -> mapM f l' = mapM f l.
Proof. induction 1 as [|a a' l l' Ha _ IH]; simpl; [done|]. by rewrite Ha, IH. Qed.

Lemma WC_geometry (sp sp' : Space.t) :
  length (Space.levels sp') = length (Space.levels sp) ->
  (forall i lvl, Space.levels sp !! i = Some lvl ->
     exists lvl', Space.levels sp' !! i = Some lvl' /\ geometry lvl' = geometry lvl) ->
  value_of (WC sp') = value_of (WC sp).
Proof.
  intros Hlen Hgeo. unfold WC.
  assert (mapM level_estimation (Space.levels sp')
          = mapM level_estimation (Space.levels sp)) as ->;
    [|by destruct (mapM _ _)].
  apply mapM_ext_Forall2. apply Forall2_same_length_lookup. split; [done|].
  intros i lvl lvl' Hl Hl'. destruct (Hgeo i lvl Hl) as (lvl1 & Hl1 & Hg).
  rewrite Hl' in Hl1. injection Hl1 as <-. by apply level_estimation_geometry.
Qed.

Lemma WC_ok (sp : Space.t) :
  space_wf sp ->
  WC sp = Returned
            (map (fun lvl =>
               {| est_price := map (fun b => Bucket.lhs b + (Bucket.rhs b - Bucket.lhs b) / 2)%Q
                                 (Level.buckets lvl);
                  est_pr := Level.winning_curve lvl |}) (Space.levels sp)) sp.
Proof.
  intros [Hl _]. unfold WC.
  assert (mapM level_estimation (Space.levels sp) = Some (map (fun lvl =>
            {| est_price := map (fun b => Bucket.lhs b + (Bucket.rhs b - Bucket.lhs b) / 2)%Q
                              (Level.buckets lvl);
               est_pr := Level.winning_curve lvl |}) (Space.levels sp))) as ->; [|done].
  induction Hl as [|lvl lvls Hlvl _ IH]; simpl; [done|].
  by rewrite (level_estimation_ok lvl Hlvl), IH.
Qed.

(** A feedback call changes nothing of what the curve snapshot shows:
    after [update_feedback] with the indices of any price, [WC] answers
    what it answered before. Only a recalibration changes the snapshot. *)
Theorem snapshot_unchanged_by_feedback (sp : Space.t) (price : Q) (impression : bool) :
  space_wf sp ->
  value_of
    (WC (state_of
           (Space.update_feedback
              (map (fun lvl => Level.sample_buckets lvl price) (Space.levels sp))
              impression sp)))
  = value_of (WC sp).
Proof.
  intros Hwf.
  destruct (update_feedback_ok
              (map (fun lvl => Level.sample_buckets lvl price) (Space.levels sp))
              impression sp Hwf) as (sp' & -> & _ & Hlen & Hgeo & _).
  - by rewrite length_map.
  - intros i bID lvl Hi Hl. rewrite list_lookup_fmap, Hl in Hi. injection Hi as <-.
    apply sample_buckets_index.
  - by apply WC_geometry.
Qed.

Lemma snapshot_unchanged_by_feedback_witness :
  value_of
    (WC (state_of
           (Space.update_feedback
              (map (fun lvl => Level.sample_buckets lvl 1.5) (Space.levels small_space))
              true small_space)))
  = value_of (WC small_space).
Proof. exact (snapshot_unchanged_by_feedback small_space 1.5 true small_space_wf). Defined.

(** ** No handler raises on a loaded server *)

(** [optimize] returns whatever it is sent, leaves the Spaces alone and
    keeps the server well-formed. *)
Lemma optimize_returns (data : option OptimizeData) (st : Server) :
  exists reply st',
    optimize data st = Returned reply st' /\
    spaces_dict st' = spaces_dict st /\
    (server_wf st -> server_wf st').
Proof.
  destruct data as [data|]; [|by exists (BadRequest "Invalid JSON"), st].
  unfold optimize.
  destruct (_ ++ _) as [|? ?]; [|by eexists _, st].
  destruct (opt_price data) as [price|]; [|by eexists _, st].
  destruct (opt_floor_price data) as [floor_price|]; [|by eexists _, st].
  unfold bind, get, modify, ret, or_raise, raise.
  destruct (bool_decide (is_Some (spaces_dict st !! opt_ctx_hash data))) eqn:Ectx;
    cbn [negb]; [|by eexists _, st].
  apply bool_decide_eq_true_1 in Ectx.
  destruct (Qlt_le_dec _ _); [by eexists _, st|].
  destruct (request_store st !! opt_id data) as [e0|] eqn:E.
  - rewrite bool_decide_eq_true_2 by eauto. cbn.
    rewrite lookup_alter_eq, E. cbn. eexists _, _. split; [done|]. split; [done|].
    intros [Hsp Hled]. split; [done|]. cbn. intros id e.
    rewrite lookup_alter. case_decide; [subst id|by apply Hled].
    rewrite E. intros [= <-]. cbn. by eapply Hled.
  - rewrite bool_decide_eq_false_2 by (intros [? ?]; congruence). cbn.
    rewrite lookup_alter_eq, lookup_insert_eq. cbn.
    eexists _, _. split; [done|]. split; [done|].
    intros [Hsp Hled]. split; [done|]. cbn. intros id e.
    rewrite lookup_alter. case_decide; [subst id|].
    + rewrite lookup_insert_eq. by intros [= <-].
    + rewrite lookup_insert_ne by done. by apply Hled.
Qed.

(** On a well-formed server [feedback] returns and keeps it so. *)
Lemma feedback_returns (data : option FeedbackData) (st : Server) :
  server_wf st ->
  exists reply st',
    feedback data st = Returned reply st' /\
    server_wf st' /\
    forall ctx, is_Some (spaces_dict st' !! ctx) <-> is_Some (spaces_dict st !! ctx).
Proof.
  intros Hwf. destruct data as [data|]; [|by exists (BadRequest "Invalid JSON"), st].
  unfold feedback.
  destruct (_ ++ _) as [|? ?]; [|by eexists _, st].
  destruct (fb_price data) as [price|]; [|by eexists _, st].
  destruct (fb_impression data) as [impression|]; [|by eexists _, st].
  unfold bind at 1, get.
  destruct (request_store st !! fb_id data) as [e0|] eqn:E; [|by eexists _, st].
  destruct Hwf as [Hsp Hled].
  destruct (Hled _ _ E) as [sp Hctx].
  pose proof (Hsp _ _ Hctx) as Hspwf.
  destruct (update_feedback_ok
              (map (fun lvl => Level.sample_buckets lvl price) (Space.levels sp))
              impression sp Hspwf) as (sp' & Hrun & Hwf' & _).
  { by rewrite length_map. }
  { intros i bID lvl Hi Hl. rewrite list_lookup_fmap, Hl in Hi. injection Hi as <-.
    apply sample_buckets_index. }
  unfold bind, modify, ret, at_space, gets. cbn. rewrite Hctx, Hrun.
  eexists _, _. split; [done|]. split; [split|]; cbn.
  - intros ctx sp0. rewrite lookup_insert. case_decide; [by intros [= <-]|apply Hsp].
  - intros id e. rewrite lookup_alter, lookup_insert.
    case_decide; [subst id|].
    + rewrite E. intros [= <-]. cbn. case_decide; [eauto|]. by rewrite Hctx.
    + intros He. case_decide; [eauto|]. by eapply Hled.
  - intros ctx. rewrite lookup_insert. case_decide; [subst; rewrite Hctx|done].
    split; eauto.
Qed.

Lemma space_endpoint_returns (ctx : string) (st : Server) :
  server_wf st -> exists reply, space_endpoint ctx st = Returned reply st.
Proof.
  intros [Hsp _]. unfold space_endpoint.
  destruct (spaces_dict st !! ctx) as [sp|] eqn:E; [|by eexists].
  rewrite (WC_ok sp) by (by eapply Hsp). by eexists.
Qed.

Section Safety.
Context `{Learner}.

Lemma learning_cycle_wf (st : Server) :
  server_wf st ->
  exists st',
    learning_cycle st = Returned tt st' /\
    server_wf st' /\
    forall ctx, is_Some (spaces_dict st' !! ctx) <-> is_Some (spaces_dict st !! ctx).
Proof.
  intros [Hsp Hled]. destruct (learning_cycle_spec st) as (st' & Hrun & Hr & Hs).
  exists st'. split; [done|].
  assert (forall ctx, is_Some (spaces_dict st' !! ctx) <-> is_Some (spaces_dict st !! ctx))
    as Hkeys.
  { intros ctx. rewrite Hs, lookup_fmap. apply fmap_is_Some. }
  split; [split|done].
  - intros ctx sp. rewrite Hs, lookup_fmap.
    destruct (spaces_dict st !! ctx) as [sp0|] eqn:E; [|done].
    intros [= <-]. apply learn_wf. by eapply Hsp.
  - intros id e. rewrite Hr. intros He. apply Hkeys. by eapply Hled.
Qed.

(** The conversion changes whether [optimize] returns, not the state it
    leaves. *)
Lemma optimize_py_state (data : option OptimizeData) (st : Server) :
  state_of (optimize_py data st) = state_of (optimize data st).
Proof.
  destruct data as [d|]; [|done]. unfold optimize_py.
  destruct (opt_price d) as [price|]; [|done]. unfold bind.
  destruct (optimize (Some d) st) as [[?|? []|?] st'|e st']; try done.
  all: by destruct (int_too_large price).
Qed.

Lemma optimize_py_fits (data : option OptimizeData) (st : Server) :
  price_fits (Call (Optimize data)) ->
  optimize_py data st = optimize data st.
Proof.
  destruct data as [d|]; [|done]. unfold optimize_py, price_fits.
  destruct (opt_price d) as [price|]; [|done]. intros Hfits. unfold bind.
  destruct (optimize (Some d) st) as [[?|? []|?] st'|e st']; try done.
  all: by rewrite Hfits.
Qed.

(** Every event keeps a well-formed server well-formed and keeps the
    set of contexts; it returns unless it is an optimize call whose
    price does not convert. *)
Lemma occur_wf (e : Event) (st : Server) :
  server_wf st ->
  (price_fits e -> returned (occur e st) = true) /\
  server_wf (state_of (occur e st)) /\
  forall ctx, is_Some (spaces_dict (state_of (occur e st)) !! ctx)
              <-> is_Some (spaces_dict st !! ctx).
Proof.
  intros Hwf. destruct e as [[data|data]|ctx|]; simpl; unfold bind.
  - destruct (optimize_returns data st) as (reply & st' & Hrun & Hs & Hw).
    pose proof (optimize_py_state data st) as Hst. rewrite Hrun in Hst. simpl in Hst.
    split.
    + intros Hfits. by rewrite (optimize_py_fits data st Hfits), Hrun.
    + assert (state_of match optimize_py data st with
                       | Returned _ s' => ret tt s'
                       | Raised e s' => Raised e s'
                       end = st') as ->.
      { by destruct (optimize_py data st). }
      split; [by apply Hw|]. intros ctx. by rewrite Hs.
  - by destruct (feedback_returns data st Hwf) as (reply & st' & -> & Hw & Hk).
  - by destruct (space_endpoint_returns ctx st Hwf) as (reply & ->).
  - by destruct (learning_cycle_wf st Hwf) as (st' & -> & Hw & Hk).
Qed.

Lemma life_wf (events : list Event) (st : Server) :
  server_wf st ->
  (Forall price_fits events -> all_return events st = true) /\
  server_wf (after events st) /\
  forall ctx, is_Some (spaces_dict (after events st) !! ctx)
              <-> is_Some (spaces_dict st !! ctx).
Proof.
  revert st. induction events as [|e events IH]; intros st Hwf; [done|].
  destruct (occur_wf e st Hwf) as (Hr & Hw & Hk).
  destruct (IH _ Hw) as (Hr' & Hw' & Hk').
  split; [|split; [done|]].
  - intros Hfits. apply Forall_cons in Hfits as [He Hes].
    cbn [all_return]. by rewrite Hr, Hr'.
  - intros ctx. unfold after in *. simpl. by rewrite Hk', Hk.
Qed.

End Safety.

Section LoadedServer.
Context `{Random} `{Learner}.

Lemma loaded_server_wf
    (cfg : Config) (buckets_map : gmap string (Q * Q)) (spaces_desc : list SpaceDesc)
    (spaces : gmap string Space.t) (g g' : rng) :
  load_spaces cfg buckets_map spaces_desc g = Returned spaces g' ->
  server_wf {| spaces_dict := spaces; request_store := ∅ |} /\
  forall ctx, is_Some (spaces !! ctx) <-> ctx ∈ map desc_context_hash spaces_desc.
Proof.
  intros Hload.
  destruct (load_spaces_loop_fresh _ _ _ _ _ _ _ Hload) as (Hv & Hk & Hf).
  assert (forall ctx, is_Some (spaces !! ctx) <-> ctx ∈ map desc_context_hash spaces_desc)
    as Hkeys.
  { intros ctx. rewrite Hk, lookup_empty. split; [intros [[? ?]|?]; done | by right]. }
  split; [|done]. split; simpl.
  - intros ctx sp Hsp. apply (fresh_space_wf cfg ctx).
    + apply Hv. intros ->. assert (is_Some (spaces !! ctx)) as Hin by eauto.
      apply Hkeys in Hin. by apply elem_of_nil in Hin.
    + apply Hf; [|done]. intros ctx0 sp0. by rewrite lookup_empty.
  - intros id e. by rewrite lookup_empty.
Qed.

(** X11. On the server that [load_spaces] has loaded, with an empty
    ledger, no optimize or feedback call, no snapshot query and no pass
    of the background loop raises, in whatever order they come, one
    after the other, provided that the price of every optimize call
    converts to a float (it is below [2^1024 - 2^970] in absolute
    value); a learner that raises is caught in the loop. *)
Theorem loaded_server_never_raises
    (cfg : Config) (buckets_map : gmap string (Q * Q)) (spaces_desc : list SpaceDesc)
    (spaces : gmap string Space.t) (g g' : rng) (events : list Event) :
  load_spaces cfg buckets_map spaces_desc g = Returned spaces g' ->
  Forall price_fits events ->
  all_return events {| spaces_dict := spaces; request_store := ∅ |} = true.
Proof.
  intros Hload Hfits. destruct (loaded_server_wf _ _ _ _ _ _ Hload) as [Hwf _].
  destruct (life_wf events _ Hwf) as (Hr & _). by apply Hr.
Qed.

(** Whatever has happened to a loaded server, it has the Spaces it was
    loaded with and no other, every Level has one winning-curve entry per
    bucket and a sample list, every Bucket has a capacity of at least
    one, a discount and an estimate [pr] within [0,1], counts that match
    its window and a window within its capacity, and every ledger entry
    names a context that has a Space. *)
Theorem loaded_server_stays_well_formed
    (cfg : Config) (buckets_map : gmap string (Q * Q)) (spaces_desc : list SpaceDesc)
    (spaces : gmap string Space.t) (g g' : rng) (events : list Event) :
  load_spaces cfg buckets_map spaces_desc g = Returned spaces g' ->
  let st := after events {| spaces_dict := spaces; request_store := ∅ |} in
  server_wf st /\
  forall ctx, is_Some (spaces_dict st !! ctx) <-> ctx ∈ map desc_context_hash spaces_desc.
Proof.
  intros Hload st. destruct (loaded_server_wf _ _ _ _ _ _ Hload) as [Hwf Hkeys].
  destruct (life_wf events _ Hwf) as (_ & Hwf' & Hk).
  split; [done|]. intros ctx. subst st. rewrite Hk. simpl. apply Hkeys.
Qed.

End LoadedServer.

Lemma loaded_server_never_raises_witness :
  exists spaces g',
    @load_spaces replay example_config example_buckets_map example_descs
      (example_draws ++ example_draws) = Returned spaces g' /\
    @all_return counting_learner example_events
      {| spaces_dict := spaces; request_store := ∅ |} = true.
Proof.
  eexists _, _. split; [vm_compute; reflexivity|].
  apply (@loaded_server_never_raises replay counting_learner example_config
           example_buckets_map example_descs _ (example_draws ++ example_draws) []).
  - vm_compute. reflexivity.
  - repeat constructor.
Defined.

Lemma loaded_server_stays_well_formed_witness :
  exists spaces g',
    @load_spaces replay example_config example_buckets_map example_descs
      (example_draws ++ example_draws) = Returned spaces g' /\
    let st := @after counting_learner example_events
                {| spaces_dict := spaces; request_store := ∅ |} in
    server_wf st /\
    forall ctx, is_Some (spaces_dict st !! ctx) <-> ctx ∈ map desc_context_hash example_descs.
Proof.
  eexists _, _. split; [vm_compute; reflexivity|].
  apply (@loaded_server_stays_well_formed replay counting_learner example_config
           example_buckets_map example_descs _ (example_draws ++ example_draws) []).
  vm_compute. reflexivity.
Defined.

(** The replies of the example life. *)
Example example_life :
  match @load_spaces replay example_config example_buckets_map example_descs
          (example_draws ++ example_draws) with
  | Returned spaces _ =>
      let st0 := {| spaces_dict := spaces; request_store := ∅ |} in
      let st := @after counting_learner example_events st0 in
      (impressions <$> request_store st !! "r1",
       attempts <$> request_store st !! "r1",
       (fun sp => length <$> Space.learning_data sp !! 0%nat) <$> spaces_dict st !! "a")
  | Raised _ _ => (None, None, None)
  end = (Some 1, Some 1, Some (Some 1%nat)).
Proof. vm_compute. reflexivity. Qed.

(** An optimize call with the price [10^400] raises at line 120, after
    the ledger entry has been written and its attempt counted. *)
Example huge_price_raises :
  match @load_spaces replay example_config example_buckets_map example_descs
          (example_draws ++ example_draws) with
  | Returned spaces _ =>
      let st0 := {| spaces_dict := spaces; request_store := ∅ |} in
      (@all_return counting_learner [huge_price_call] st0,
       attempts <$> request_store (@after counting_learner [huge_price_call] st0) !! "r2")
  | Raised _ _ => (true, None)
  end = (false, Some 1).
Proof. vm_compute. reflexivity. Qed.

(** ** The background loop *)

(** Any number of passes of the background loop returns, whatever the
    learner raises; the passes leave the ledger and the set of contexts
    as they were, and each Space is what its own [learn], run once per
    pass, makes of it. *)
Theorem background_learning_never_raises `{Learner} (cycles : nat) (st : Server) :
  exists st',
    background_learning cycles st = Returned tt st' /\
    request_store st' = request_store st /\
    spaces_dict st'
    = (fun sp => Nat.iter cycles (fun sp => state_of (Space.learn sp)) sp) <$> spaces_dict st.
Proof.
  revert st. induction cycles as [|n IH]; intros st; simpl.
  - exists st. split; [done|]. split; [done|]. by rewrite map_fmap_id.
  - unfold bind. destruct (learning_cycle_spec st) as (st1 & -> & Hr1 & Hs1).
    destruct (IH st1) as (st2 & -> & Hr2 & Hs2).
    exists st2. split; [done|]. split; [congruence|].
    rewrite Hs2, Hs1, <- map_fmap_compose. apply map_fmap_ext.
    intros ctx sp _. simpl. clear. induction n as [|n IHn]; [done|].
    simpl. by rewrite <- IHn.
Qed.

(** ** Requests that are refused *)

(** A malformed request is answered with a bad-request reply and changes
    nothing: not the ledger, not a Space. *)
Theorem malformed_request_changes_nothing (r : Request) (st : Server) :
  malformed r st ->
  exists message, handle r st = Returned (BadRequest message) st.
Proof.
  destruct r as [[data|]|[data|]]; simpl; try (intros _; by eexists).
  - unfold optimize. intros Hbad.
    destruct (String.eqb_spec (opt_id data) EmptyString) as [Hid|Hid];
      [destruct (opt_price data), (opt_floor_price data); by eexists|].
    destruct (opt_price data) as [price|];
      [|destruct (opt_floor_price data); by eexists].
    destruct (opt_floor_price data) as [floor_price|]; [|by eexists].
    destruct Hbad as [?|[?|[?|Hctx]]]; try done.
    cbn [app]. unfold bind, get, ret. rewrite Hctx.
    rewrite bool_decide_eq_false_2 by (intros [? ?]; done). by eexists.
  - unfold feedback. intros Hbad.
    destruct (String.eqb_spec (fb_id data) EmptyString) as [Hid|Hid];
      [destruct (fb_price data), (fb_impression data); by eexists|].
    destruct (fb_price data) as [price|];
      [|destruct (fb_impression data); by eexists].
    destruct (fb_impression data) as [impression|]; [|by eexists].
    destruct Hbad as [?|[?|?]]; done.
Qed.

Lemma malformed_request_changes_nothing_witness :
  exists message,
    handle (Optimize (Some (example_optimize 10 9)))
      {| spaces_dict := ∅; request_store := ∅ |}
    = Returned (BadRequest message) {| spaces_dict := ∅; request_store := ∅ |}.
Proof.
  apply (malformed_request_changes_nothing (Optimize (Some (example_optimize 10 9)))
           {| spaces_dict := ∅; request_store := ∅ |}).
  simpl. right. right. right. reflexivity.
Defined.

(** ** Which Space a feedback reaches *)

Lemma feedback_other_spaces (st : Server) (data : FeedbackData) (price : Q)
    (impression : bool) (e : Entry) (ctx : string) :
  fb_id data <> EmptyString ->
  fb_price data = Some price ->
  fb_impression data = Some impression ->
  request_store st !! fb_id data = Some e ->
  ctx <> entry_context_hash e ->
  spaces_dict (state_of (feedback (Some data) st)) !! ctx = spaces_dict st !! ctx.
Proof.
  intros Hid Hp Hi He Hctx. unfold feedback. rewrite Hp, Hi.
  apply String.eqb_neq in Hid. rewrite Hid. cbn [app].
  unfold bind, get, ret, modify. rewrite He. unfold at_space. cbn.
  destruct (spaces_dict st !! entry_context_hash e) as [sp|] eqn:Esp; cbn; [|done].
  match goal with |- context [match ?c sp with _ => _ end] => destruct (c sp) end;
    cbn; by rewrite lookup_insert_ne.
Qed.

(** The ledger entry of a request id is made by the first optimize call
    and later calls only count attempts: after two accepted optimize
    calls for a new id, the second for another price and context, and a
    feedback for that id, the entry still holds the price, floor and
    context of the first call, with two attempts and one impression, and
    no Space but the one of the first context has changed. *)
Theorem feedback_reaches_first_context
    (st : Server) (first second : OptimizeData) (fb : FeedbackData)
    (price1 floor1 price2 floor2 fb_price' : Q) (impression : bool) :
  request_store st !! opt_id first = None ->
  opt_id first <> EmptyString ->
  opt_id second = opt_id first ->
  fb_id fb = opt_id first ->
  opt_price first = Some price1 -> opt_floor_price first = Some floor1 ->
  (floor1 <= price1)%Q -> is_Some (spaces_dict st !! opt_ctx_hash first) ->
  opt_price second = Some price2 -> opt_floor_price second = Some floor2 ->
  (floor2 <= price2)%Q -> is_Some (spaces_dict st !! opt_ctx_hash second) ->
  fb_price fb = Some fb_price' -> fb_impression fb = Some impression ->
  let st' := (serve [Optimize (Some first); Optimize (Some second); Feedback (Some fb)] st).2 in
  request_store st' !! opt_id first
    = Some (set_impressions (fun n => n + 1)
              (set_attempts (fun n => n + 1)
                 (set_attempts (fun n => n + 1) (new_entry first price1 floor1)))) /\
  forall ctx, ctx <> opt_ctx_hash first -> spaces_dict st' !! ctx = spaces_dict st !! ctx.
Proof.
  intros Hnew Hid Hid2 Hfid Hp1 Hf1 Hle1 Hc1 Hp2 Hf2 Hle2 Hc2 Hfp Hfi st'. subst st'.
  rewrite !serve_cons. cbn [snd handle serve].
  rewrite (optimize_accepts st first price1 floor1) by done.
  cbn [state_of]. rewrite Hnew. cbn [default].
  set (st1 := set_request_store _ st).
  assert (request_store st1 !! opt_id second
          = Some (set_attempts (fun n => n + 1) (new_entry first price1 floor1))) as He1.
  { subst st1. cbn. by rewrite Hid2, lookup_insert_eq. }
  rewrite (optimize_accepts st1 second price2 floor2) by (done || (by rewrite Hid2)).
  cbn [state_of]. rewrite He1. cbn [default].
  set (st2 := set_request_store _ st1).
  set (e2 := set_attempts (fun n => n + 1)
               (set_attempts (fun n => n + 1) (new_entry first price1 floor1))) in *.
  assert (request_store st2 !! fb_id fb = Some e2) as He2.
  { subst st2. cbn. by rewrite Hfid, Hid2, lookup_insert_eq. }
  assert (fb_id fb <> EmptyString) as Hfid' by (by rewrite Hfid).
  destruct (feedback_known st2 fb fb_price' impression e2 Hfid' Hfp Hfi He2) as [Hrs _].
  split.
  - rewrite Hrs, Hfid. by rewrite lookup_insert_eq.
  - intros ctx Hctx.
    rewrite (feedback_other_spaces st2 fb fb_price' impression e2 ctx) by done.
    done.
Qed.

Lemma feedback_reaches_first_context_witness :
  let first := example_optimize 1.5 1.2 in
  let second :=
    {| opt_id := "r1"; opt_price := Some 3%Q; opt_floor_price := Some 2%Q;
       opt_ctx_hash := "b"; opt_data_center := "dc"; opt_ext_ad_format := "video";
       opt_app_publisher_id := "pub"; opt_bundle_id := "bundle"; opt_tag_id := "tag";
       opt_device_geo_country := "US" |} in
  let st := {| spaces_dict := <["ctx" := example_space]> {[ "b" := trainable_space ]};
               request_store := ∅ |} in
  let st' := (serve [Optimize (Some first); Optimize (Some second);
                     Feedback (Some (example_feedback "r1"))] st).2 in
  request_store st' !! opt_id first
    = Some (set_impressions (fun n => n + 1)
              (set_attempts (fun n => n + 1)
                 (set_attempts (fun n => n + 1) (new_entry first 1.5 1.2)))) /\
  forall ctx, ctx <> opt_ctx_hash first -> spaces_dict st' !! ctx = spaces_dict st !! ctx.
Proof.
  refine (feedback_reaches_first_context _ (example_optimize 1.5 1.2) _
            (example_feedback "r1") 1.5 1.2 3 2 1.5 true _ _ _ _ _ _ _ _ _ _ _ _ _ _);
    try reflexivity; try discriminate; vm_compute; eauto.
Defined.

(** ** A recalibration that succeeds *)

Section Recalibrated.
Context `{Learner}.

Lemma set_levels_same (sp : Space.t) (i : nat) (lvl : Level.t) :
  Space.levels sp !! i = Some lvl ->
  Space.set_levels
    (fun ls => <[i := Level.set_winning_curve (fun c => take 0 ([] : list Q) ++ drop 0 c) lvl]> ls) sp
  = sp.
Proof.
  intros Hl. destruct sp as [ctx ls ld], lvl as [bs c]. unfold Space.set_levels. simpl in *.
  f_equal. by apply list_insert_id.
Qed.

(** The loop over the buckets writes the predictions into the curve. *)
Lemma fill_curve (i : nat) (sp : Space.t) (lvl : Level.t) (m : model) (preds : list Q) :
  Space.levels sp !! i = Some lvl ->
  length (Level.winning_curve lvl) = length (Level.buckets lvl) ->
  mapM (predicted m) (Level.buckets lvl) = Some preds ->
  for_each (enumerate (Level.buckets lvl)) (fun '(j, bucket) =>
    let mid_price := ((Bucket.lhs bucket + Bucket.rhs bucket) / 2)%Q in
    (let* pred := or_raise LearnerError (predict m (Bucket.pr bucket) mid_price) in
     Space.curve_store i j pred)%py) sp
  = Returned tt
      (Space.set_levels
         (fun ls => <[i := Level.set_winning_curve (fun _ => preds) lvl]> ls) sp).
Proof.
  intros Hl Hlen Hpreds. apply mapM_Some in Hpreds.
  pose proof (Forall2_length _ _ _ Hpreds) as Hlp.
  set (at_k := fun (k : nat) =>
    Space.set_levels
      (fun ls => <[i := Level.set_winning_curve
                          (fun c => take k preds ++ drop k c) lvl]> ls) sp).
  destruct (for_each_enumerate_ind (fun k s => s = at_k k) (Level.buckets lvl)
              (fun j bucket =>
                 let mid_price := ((Bucket.lhs bucket + Bucket.rhs bucket) / 2)%Q in
                 (let* pred := or_raise LearnerError (predict m (Bucket.pr bucket) mid_price) in
                  Space.curve_store i j pred)%py) sp) as (sp' & Hrun & Hend).
  - intros k bucket s0 Hk ->.
    destruct (Forall2_lookup_l _ _ _ _ _ Hpreds Hk) as (p & Hp & Hpred).
    unfold predicted in Hpred. cbv zeta. unfold bind, or_raise. rewrite Hpred.
    unfold ret. eexists. split; [|reflexivity].
    assert (k < length (Level.buckets lvl))%nat as Hklt by (by eapply lookup_lt_Some).
    unfold Space.curve_store, Space.level_at, bind, or_raise, ret, modify, raise.
    assert (i < length (Space.levels sp))%nat as Hi by (by eapply lookup_lt_Some).
    subst at_k. cbn [Space.levels Space.set_levels].
    rewrite list_lookup_insert_eq by done. cbn -[Nat.ltb].
    rewrite length_app, length_take, length_drop.
    rewrite (proj2 (Nat.ltb_lt _ _)) by lia.
    unfold Space.set_levels. cbn. rewrite list_insert_insert_eq.
    do 3 f_equal. unfold Level.set_winning_curve. cbn. f_equal.
    destruct (lookup_lt_is_Some_2 (Level.winning_curve lvl) k) as [y Hy]; [lia|].
    rewrite (drop_S _ _ _ Hy), (take_S_r _ _ _ Hp).
    rewrite insert_app_r_alt by (rewrite length_take; lia).
    rewrite length_take. replace (k - k `min` length preds)%nat with 0%nat by lia.
    simpl. by rewrite <- app_assoc.
  - subst at_k. cbn beta. destruct preds; symmetry; by apply set_levels_same.
  - rewrite Hrun, Hend. subst at_k. cbn beta.
    unfold Level.set_winning_curve.
    rewrite take_ge by lia. rewrite drop_ge by lia. by rewrite app_nil_r.
Qed.

(** The iteration of [learn] for a level that holds ten samples or more,
    whose training and predictions succeed. *)
Lemma learn_level_fits (i : nat) (sp : Space.t) (lvl : Level.t) (data : list Sample)
    (m : model) (preds : list Q) :
  Space.levels sp !! i = Some lvl ->
  length (Level.winning_curve lvl) = length (Level.buckets lvl) ->
  Space.learning_data sp !! i = Some data ->
  (10 <= length data)%nat ->
  train (map (fun d => (sample_pr d, sample_price d)) data)
        (map sample_impression data) = Some m ->
  mapM (predicted m) (Level.buckets lvl) = Some preds ->
  Space.learn_level i sp
  = Returned tt
      (Space.set_learning_data (fun ld => <[i := []]> ld)
         (Space.set_levels
            (fun ls => <[i := Level.set_winning_curve (fun _ => preds) lvl]> ls) sp)).
Proof.
  intros Hl Hlen Hd Hten Htrain Hpreds.
  pose proof (fill_curve i sp lvl m preds Hl Hlen Hpreds) as Hfill.
  unfold Space.learn_level, Space.fit, Space.level_at, Space.data_at.
  unfold bind, or_raise, raise, ret in *. rewrite Hl. simpl. rewrite Hd. simpl.
  destruct (Nat.ltb_spec (length data) 10) as [?|_]; [lia|].
  rewrite Htrain. simpl. rewrite Hfill. reflexivity.
Qed.

(** When [learn] returns, a level that held ten samples or more has as
    its winning curve the predictions of the model trained on these
    samples, one per bucket, each at the bucket's [pr] and mid price;
    its buckets are as they were. *)
Theorem learn_recalibrates (sp sp' : Space.t) (i : nat) (lvl : Level.t)
    (data : list Sample) (m : model) (preds : list Q) :
  Space.learn sp = Returned tt sp' ->
  Space.levels sp !! i = Some lvl ->
  length (Level.winning_curve lvl) = length (Level.buckets lvl) ->
  Space.learning_data sp !! i = Some data ->
  (10 <= length data)%nat ->
  train (map (fun d => (sample_pr d, sample_price d)) data)
        (map sample_impression data) = Some m ->
  mapM (predicted m) (Level.buckets lvl) = Some preds ->
  Space.levels sp' !! i
  = Some {| Level.buckets := Level.buckets lvl; Level.winning_curve := preds |}.
Proof.
  intros Hlearn Hl Hlen Hd Hten Htrain Hpreds.
  assert (i < length (Space.levels sp))%nat as Hi by (by eapply lookup_lt_Some).
  unfold Space.learn, bind, gets in Hlearn.
  rewrite for_each_enumerate in Hlearn.
  set (n := length (Space.levels sp)) in *.
  replace (seq 0 n) with (seq 0 i ++ i :: seq (S i) (n - S i)) in Hlearn.
  2:{ change (i :: seq (S i) (n - S i)) with (seq i (S (n - S i))).
      rewrite <- seq_app. f_equal. lia. }
  apply for_each_returned_split in Hlearn as (s1 & s2 & Hpre & Hi' & Hpost).
  assert (Space.levels s1 !! i = Some lvl /\ Space.learning_data s1 !! i = Some data)
    as [Hl1 Hd1].
  { replace s1 with (state_of (for_each (seq 0 i) Space.learn_level sp))
      by (by rewrite Hpre).
    apply (for_each_invariant_in
             (fun s => Space.levels s !! i = Some lvl /\
                       Space.learning_data s !! i = Some data)); [|done].
    intros j s0 Hj [Hs0 Hd0]. apply elem_of_seq in Hj.
    destruct (learn_level_frame j s0) as [_ Hf].
    destruct (Hf i) as [Hl0' Hd0']; [lia|]. split; congruence. }
  rewrite (learn_level_fits i s1 lvl data m preds Hl1 Hlen Hd1 Hten Htrain Hpreds) in Hi'.
  apply Returned_inv in Hi' as [_ <-].
  replace sp' with (state_of (for_each (seq (S i) (n - S i)) Space.learn_level
    (Space.set_learning_data (fun ld => <[i := []]> ld)
       (Space.set_levels
          (fun ls => <[i := Level.set_winning_curve (fun _ => preds) lvl]> ls) s1))))
    by (by rewrite Hpost).
  apply (for_each_invariant_in
           (fun s => Space.levels s !! i
                     = Some {| Level.buckets := Level.buckets lvl;
                               Level.winning_curve := preds |})).
  - intros j s0 Hj Hs0. apply elem_of_seq in Hj.
    destruct (learn_level_frame j s0) as [_ Hf].
    destruct (Hf i) as [Hl0' _]; [lia|]. congruence.
  - simpl. apply list_lookup_insert_eq. by eapply lookup_lt_Some.
Qed.

End Recalibrated.

Lemma learn_recalibrates_witness :
  Space.levels (state_of (@Space.learn counting_learner trainable_space)) !! 0%nat
  = Some {| Level.buckets := [Bucket.init 1 2 10 0.5]; Level.winning_curve := [10%Q] |}.
Proof.
  refine (@learn_recalibrates counting_learner trainable_space _ 0%nat
            (Level.init [Bucket.init 1 2 10 0.5])
            (example_sample 0 :: replicate 9 (example_sample 1)) 10%nat [10%Q]
            _ _ _ _ _ _ _).
  - vm_compute. reflexivity.
  - reflexivity.
  - reflexivity.
  - vm_compute. reflexivity.
  - simpl. lia.
  - reflexivity.
  - reflexivity.
Defined.
